(** * ark-project: order status, contract tables and the order lifecycle

    A shallow embedding of the TypeScript sources

    - [packages/core/src/actions/read/getOrderStatus.ts]
    - [packages/react/src/hooks/useCancelCollectionOffer.ts]
    - the generated per-network contract tables

    together with a model of the lifecycle components that the design
    document describes and the sources do not contain (address registry
    lookup, approval coordinator, order submitter, status polling). *)

From Stdlib Require Import ZArith Lia.
From stdpp Require Import gmap strings list.

Open Scope string_scope.
Open Scope list_scope.

(** ** Promises: asynchronous code as a state-and-failure monad *)

Module Js.

(** What a promise can reject with.  [Error] and [TypeError] are the
    JavaScript runtime's own; [ProviderError] is a failure of the RPC
    transport and [RevertError] a transaction the chain reverted; the rest is
    the design document's taxonomy. *)
Inductive Failure : Type :=
| Error (message : string)
| TypeError (message : string)
| ProviderError (message : string)
| RevertError (reason : string)
| UnknownRoleError (role : string)
| InterfaceResolutionError (address : string)
| ApprovalError (reason : string)
| SubmissionError (step : string) (reason : string)
| CancellationError (reason : string)
| TimeoutError.

(** The text of a failure, for the errors that carry an underlying reason. *)
Definition describe (e : Failure) : string :=
  match e with
  | Error m | TypeError m | ProviderError m | RevertError m => m
  | UnknownRoleError role => "unknown role " +:+ role
  | InterfaceResolutionError address => "no interface at " +:+ address
  | ApprovalError reason | CancellationError reason => reason
  | SubmissionError step reason => step +:+ ": " +:+ reason
  | TimeoutError => "deadline exceeded"
  end.

Inductive outcome (A : Type) : Type :=
| Resolved (value : A)
| Rejected (reason : Failure).

Arguments Resolved {A} value.
Arguments Rejected {A} reason.

(** An async function run against a world of type [W]: it leaves a new
    world and either resolves or rejects. *)
Definition Async (W A : Type) : Type := W -> W * outcome A.

Definition ret {W A} (a : A) : Async W A := fun w => (w, Resolved a).

Definition throw {W A} (e : Failure) : Async W A := fun w => (w, Rejected e).

(** [await m] followed by the rest of the function body. *)
Definition bind {W A B} (m : Async W A) (k : A -> Async W B) : Async W B :=
  fun w =>
    match m w with
    | (w', Resolved a) => k a w'
    | (w', Rejected e) => (w', Rejected e)
    end.

(** [try { body } catch (error) { handler }] *)
Definition try_catch {W A} (body : Async W A) (handler : Failure -> Async W A)
  : Async W A :=
  fun w =>
    match body w with
    | (w', Resolved a) => (w', Resolved a)
    | (w', Rejected e) => handler e w'
    end.

(** Run a computation on a component of a larger world. *)
Definition zoom {W V A} (get : W -> V) (set : V -> W -> W) (m : Async V A)
  : Async W A :=
  fun w => let (v', r) := m (get w) in (set v' w, r).

Definition is_resolved {A} (r : outcome A) : bool :=
  match r with Resolved _ => true | Rejected _ => false end.

End Js.

Import Js.

Declare Scope async_scope.
Delimit Scope async_scope with async.
Notation "x <- m ;; k" := (bind m (fun x => k))
  (at level 100, m at next level, right associativity) : async_scope.
Notation "m ;;; k" := (bind m (fun _ => k))
  (at level 100, right associativity) : async_scope.
Open Scope async_scope.

(** ** The generated contract tables *)

Module Contracts.

(** A table is a JavaScript object literal: a finite map from property name
    to address; reading an absent property yields [undefined], here [None]. *)
Abbreviation ContractTable := (gmap string string).

Definition GOERLI_CONTRACTS : ContractTable :=
  list_to_map
    [ ("nftContract", "0x22411b480425fe6e627fdf4d1b6ac7f8567314ada5617a0a6d8ef3e74b69436");
      ("messaging", "0x2c3d3e0c37d29364a13ba8cff046e7bc5624655a72526961876a1c8bb3f63c8");
      ("executor", "0x73148536f8ea9546e92761d11515548cc433df46883d5ee98871a6f63a0bbbc");
      ("orderbook", "0x66f1e6acf9bdbd23837b2eea271430298b355c506978edb132737e7fcb6b310") ].

Definition SEPOLIA_CONTRACTS : ContractTable := list_to_map [].

Definition MAINNET_CONTRACTS : ContractTable :=
  list_to_map
    [ ("nftContract", "0x32d99485b22f2e58c8a0206d3b3bb259997ff0db70cffd25585d7dd9a5b0546");
      ("messaging", "0x57d45cc46de463f7ae63b74ce9b6b6b496a1178b02e7ad04d7c307caa698b7b");
      ("executor", "0x7b42945bc47001db92fe1b9739d753925263f2f1036c2ae1f87536c916ee6a");
      ("orderbook", "0x785873b81c8a3f076270868418c783e8faa5f2b86b87a1754947c650868feb8") ].

Definition DEV_CONTRACTS : ContractTable :=
  list_to_map
    [ ("messaging", "0x3cb72f2da873bf35672d719161aabfebcd3a021b717cfbde576c43f58791704");
      ("executor", "0x4976035b0b9b4a651751508b8df0ee054f2b25427625949ffc6487ea4439fa");
      ("nftContract", "0x42c3bf5aa286bf34be0f7ab7312ad90c485134343a35c004091bd61b1267c6e");
      ("eth", "0x200184bde479ccffa50a89485417c907bc1d3779f9b1863d2158733135facce");
      ("orderbook", "0x34b25722ae80d1ca27555f6297237171570876974e62e7ef612e9942d08624c") ].





(** The four tables, by the network they are generated for. *)
Inductive Network : Type := Goerli | Sepolia | Mainnet | Dev.

Definition contracts_of (n : Network) : ContractTable :=
  match n with
  | Goerli => GOERLI_CONTRACTS
  | Sepolia => SEPOLIA_CONTRACTS
  | Mainnet => MAINNET_CONTRACTS
  | Dev => DEV_CONTRACTS
  end.

(** Modelled from the spec: the Address Registry's [resolve(role)], which the
    sources do not contain (they hold only the tables).  It fails with
    [UnknownRoleError] if the role is absent from the bound network's table;
    the table is an argument and no new table is returned. *)
Definition resolve (table : ContractTable) (role : string) : outcome string :=
  match table !! role with
  | Some address => Resolved address
  | None => Rejected (UnknownRoleError role)
  end.

End Contracts.

(** ** The chain boundary: provider, contract objects, Cairo values *)

Module Starknet.

Definition Address := string.

(** An argument of a call before it is rendered as field elements:
    [CallData.compile] turns each into decimal strings, which is not
    modelled. *)
Inductive Arg : Type :=
| Num (z : Z)
| Addr (a : Address).

#[global] Instance Arg_eq_dec : EqDecision Arg.
Proof. solve_decision. Defined.

Definition Calldata := list Arg.

(** An interface description, as far as the client uses it: the names of the
    entry points, which [Contract] turns into methods.  An entry point is a
    function with inputs or outputs; a description without any is one whose
    Cairo version the library cannot determine. *)
Definition Abi := list string.

(** The class found at an address; its [abi] property may be [undefined]. *)
Record ContractClass : Type := { abi : option Abi }.

(** [CairoCustomEnum]: an object with one property per variant of the Cairo
    enum; the variants that are not active hold [undefined]. *)
Record CairoCustomEnum : Type := { variant : list (string * option (list Z)) }.

(** [activeVariant()]: the name of the first property that is not
    [undefined], or the empty string if there is none. *)
Definition activeVariant (e : CairoCustomEnum) : string :=
  match List.find (fun item => match snd item with Some _ => true | None => false end)
                  (variant e) with
  | Some item => fst item
  | None => ""
  end.

(** The chain reports a status as a tagged variant with exactly one active
    tag: [tag] is the one variant of [e] that is not [undefined]. *)
Definition isActive (e : CairoCustomEnum) (tag : string) : Prop :=
  (exists payload, (tag, Some payload) ∈ variant e)
  /\ (forall t payload, (t, Some payload) ∈ variant e -> t = tag).

(** A decoded result of a view call. *)
Inductive CairoValue : Type :=
| CNumber (z : Z)
| CEnum (e : CairoCustomEnum).

(** A state-changing call, as handed to the RPC. *)
Record Tx : Type := {
  tx_contract : Address;
  tx_entrypoint : string;
  tx_calldata : Calldata;
  tx_sender : Address
}.

#[global] Instance Tx_eq_dec : EqDecision Tx.
Proof. solve_decision. Defined.

(** The chain at one moment, as the answers it gives to reads. *)
Record Node : Type := {
  classAt : Address -> outcome ContractClass;
  callResult : Address -> string -> Calldata -> outcome CairoValue
}.

(** What crosses the boundary, in order.  [NewContract] stays on the client:
    it is recorded to tell whether a contract object was built. *)
Inductive Event : Type :=
| GetClassAt (address : Address)
| NewContract (address : Address)
| CallContract (address : Address) (entrypoint : string) (calldata : Calldata)
| Broadcast (tx : Tx)
| BroadcastFailed (tx : Tx)
| Included (tx : Tx)
| Reverted (tx : Tx)
| Slept (ticks : nat).

#[global] Instance Event_eq_dec : EqDecision Event.
Proof. solve_decision. Defined.

(** The world an action runs in.  [node] is the chain now, [clock] the time
    in ticks and [log] what has crossed the boundary so far (oldest first).
    [elapse], [execute] and [faults] are the chain's and the transport's own
    behaviour: the chain's progress over one tick, the inclusion of a
    transaction (the new chain, or the reason of the revert), and for each
    coming broadcast whether the transport fails transiently.  [interfaces]
    is the one piece of client memory: the interface descriptions the
    lifecycle gateway has resolved so far. *)
Record World : Type := {
  node : Node;
  log : list Event;
  clock : nat;
  elapse : Node -> Node;
  execute : Tx -> Node -> Node + string;
  faults : list bool;
  interfaces : gmap Address Abi
}.

Definition emit (e : Event) (w : World) : World :=
  {| node := node w; log := log w ++ [e]; clock := clock w;
     elapse := elapse w; execute := execute w; faults := faults w;
     interfaces := interfaces w |}.

(** The events a run from [w] to [w'] appended to the log. *)
Definition events (w w' : World) : list Event := drop (length (log w)) (log w').

Arguments events : simpl never.

(** The handle a configuration holds on the chain endpoint. *)
Record RpcProvider : Type := { nodeUrl : string }.

(** [provider.getClassAt(address)] *)
Definition getClassAt (provider : RpcProvider) (address : Address)
  : Async World ContractClass :=
  fun w => (emit (GetClassAt address) w, classAt (node w) address).

(** A [Contract] object: the interface it was built from, its address and
    its provider. *)
Record Contract : Type := {
  contract_abi : Abi;
  contract_address : Address;
  contract_provider : RpcProvider
}.

(** [new Contract(abi, address, provider)]: the constructor reads the
    interface description first and throws on one whose Cairo version it
    cannot determine; no contract object is built then. *)
Definition newContract (a : Abi) (address : Address) (provider : RpcProvider)
  : Async World Contract :=
  match a with
  | [] => throw (Error "Unable to determine Cairo version")
  | _ :: _ =>
      fun w => (emit (NewContract address) w,
                Resolved {| contract_abi := a; contract_address := address;
                            contract_provider := provider |})
  end.

(** [CallData.compile({ name: value, ... })]: the values, in property order. *)
Definition CallData_compile (fields : list (string * Arg)) : Calldata :=
  snd <$> fields.

(** [receiver.method(calldata)], where [receiver] is the text of the
    expression that holds the contract object [c]: the object has a method
    for each entry point of its interface and no other; calling a property
    that is not there is a [TypeError] that names the expression, raised
    before anything is sent. *)
Definition callMethod (receiver : string) (c : Contract) (method : string)
    (calldata : Calldata) : Async World CairoValue :=
  if bool_decide (method ∈ contract_abi c) then
    fun w => (emit (CallContract (contract_address c) method calldata) w,
              callResult (node w) (contract_address c) method calldata)
  else
    throw (TypeError (receiver +:+ "." +:+ method +:+ " is not a function")).

End Starknet.

Import Starknet.

(** ** packages/core *)

Module Core.

(** The part of [Config] the sources read. *)
Record Config : Type := {
  starknetProvider : RpcProvider;
  starknetExecutorContract : Address;
  starknetCurrencyContract : Address
}.

Record GetOrderStatusParameters : Type := { orderHash : Z }.

Record GetOrderStatusResult : Type := { orderStatus : string }.

(** The result of [get_order_status] is annotated [CairoCustomEnum]; the
    annotation is not checked when the code runs, and [activeVariant] is a
    method of that class only. *)
Definition getOrderStatus (config : Config) (parameters : GetOrderStatusParameters)
  : Async World GetOrderStatusResult :=
  let orderHash := orderHash parameters in
  cls <- getClassAt (starknetProvider config) (starknetExecutorContract config) ;;
  match abi cls with
  | None => throw (Error "no abi.")
  | Some executorAbi =>
      orderbookContract <-
        newContract executorAbi (starknetExecutorContract config)
                    (starknetProvider config) ;;
      let order_hash_calldata := CallData_compile [("order_hash", Num orderHash)] in
      orderStatus <- callMethod "orderbookContract" orderbookContract
                                "get_order_status" order_hash_calldata ;;
      match orderStatus with
      | CEnum orderStatus => ret {| orderStatus := activeVariant orderStatus |}
      | CNumber _ => throw (TypeError "orderStatus.activeVariant is not a function")
      end
  end.

(** The three things [getOrderStatus] can send, in the order it sends them. *)
Definition getOrderStatus_script (config : Config)
    (parameters : GetOrderStatusParameters) : list Event :=
  [ GetClassAt (starknetExecutorContract config);
    NewContract (starknetExecutorContract config);
    CallContract (starknetExecutorContract config) "get_order_status"
                 [Num (orderHash parameters)] ].

End Core.

(** ** packages/react *)

Module React.

Import Core.

Inductive Status : Type := idle | loading | success | error.

(** [AccountInterface], as far as the client reads it. *)
Record AccountInterface : Type := { address : Address }.

Record CancelCollectionOfferInfo : Type := {
  info_orderHash : Z;
  info_tokenAddress : Address
}.

(** The argument of the core's [cancelCollectionOffer]. *)
Record CancelCollectionOfferParameters : Type := {
  cco_starknetAccount : AccountInterface;
  cancelInfo : CancelCollectionOfferInfo
}.

(** [CancelParameters = { starknetAccount } & CancelCollectionOfferInfo] *)
Record CancelParameters : Type := {
  starknetAccount : AccountInterface;
  orderHash : Z;
  tokenAddress : Address
}.

(** What a mounted component holds: the world its actions run in, the state
    cell of [useState<Status>], the calls of [setStatus] so far and the
    console. *)
Record Component : Type := {
  world : World;
  status : Status;
  setStatusCalls : list Status;
  console : list Failure
}.

(** [useState<Status>("idle")] at the first render. *)
Definition mount (w : World) : Component :=
  {| world := w; status := idle; setStatusCalls := []; console := [] |}.

Definition setStatus (s : Status) : Async Component unit :=
  fun c => ({| world := world c; status := s;
               setStatusCalls := setStatusCalls c ++ [s];
               console := console c |}, Resolved tt).

Definition console_error (e : Failure) : Async Component unit :=
  fun c => ({| world := world c; status := status c;
               setStatusCalls := setStatusCalls c;
               console := console c ++ [e] |}, Resolved tt).

Definition in_world {A} (m : Async World A) : Async Component A :=
  zoom world
       (fun w c => {| world := w; status := status c;
                      setStatusCalls := setStatusCalls c; console := console c |})
       m.

Section UseCancelCollectionOffer.

(** The core's [cancelCollectionOffer] is imported, not defined here: any
    async function of the world. *)
Variable cancelCollectionOffer :
  Config -> CancelCollectionOfferParameters -> Async World unit.

(** The value of [useConfig()], cast to [Config]. *)
Variable config : Config.

Definition cancel (parameters : CancelParameters) : Async Component unit :=
  try_catch
    (setStatus loading ;;;
     in_world
       (cancelCollectionOffer config
          {| cco_starknetAccount := starknetAccount parameters;
             cancelInfo := {| info_orderHash := orderHash parameters;
                              info_tokenAddress := tokenAddress parameters |} |}) ;;;
     setStatus success)
    (fun error =>
       setStatus React.error ;;;
       console_error error).

(** [useCancelCollectionOffer()] at one render: the [cancel] function and
    the status of that render. *)
Definition useCancelCollectionOffer (c : Component)
  : (CancelParameters -> Async Component unit) * Status :=
  (cancel, status c).

End UseCancelCollectionOffer.

End React.

(** ** The order lifecycle of the design document

    None of the functions of this module is in the sources; each is written
    from the design document's description of the component it belongs to. *)

Module Lifecycle.

Import Contracts.

(** Modelled from the spec: the Client Facade, which is not in the sources:
    the address registry it binds at construction and the chain endpoint,
    shared read-only by the components. *)
Record Facade : Type := {
  registry : ContractTable;
  endpoint : RpcProvider
}.

(** Modelled from the spec: an Account, which is not in the sources: a
    signing identity, supplied per call. *)
Record Account : Type := { account_address : Address }.

Definition lift_outcome {A} (r : outcome A) : Async World A := fun w => (w, r).

Definition now : Async World nat := fun w => (w, Resolved (clock w)).

(** Modelled from the spec: suspension for a number of ticks, which is not in
    the sources; the chain progresses on its own meanwhile. *)
Definition sleep (ticks : nat) : Async World unit :=
  fun w =>
    (emit (Slept ticks)
       {| node := Nat.iter ticks (elapse w) (node w); log := log w;
          clock := clock w + ticks; elapse := elapse w; execute := execute w;
          faults := faults w; interfaces := interfaces w |},
     Resolved tt).

Definition remember (address : Address) (a : Abi) (w : World) : World :=
  {| node := node w; log := log w; clock := clock w; elapse := elapse w;
     execute := execute w; faults := faults w;
     interfaces := <[address := a]> (interfaces w) |}.

(** The transactions handed to the transport among [evs], broadcast or not. *)
Definition submitted (evs : list Event) : list Tx :=
  omap (fun e => match e with
                 | Broadcast tx | BroadcastFailed tx => Some tx
                 | _ => None
                 end) evs.

(** The transactions broadcast among [evs]. *)
Definition broadcasts (evs : list Event) : list Tx :=
  omap (fun e => match e with Broadcast tx => Some tx | _ => None end) evs.

(** The events of a read: looking up a class, building a contract object,
    calling a view. *)
Definition is_read (e : Event) : bool :=
  match e with
  | GetClassAt _ | NewContract _ | CallContract _ _ _ => true
  | _ => false
  end.

Definition reads_only (evs : list Event) : Prop := Forall (fun e => is_read e) evs.

Definition is_sleep (e : Event) : bool :=
  match e with Slept _ => true | _ => false end.

(** Nothing but reads and sleeps: no transaction handed over, included or
    reverted. *)
Definition reads_and_sleeps (evs : list Event) : Prop :=
  Forall (fun e => is_read e || is_sleep e) evs.

(** [w'] differs from [w] in the log and the client's memory at most. *)
Definition same_chain (w w' : World) : Prop :=
  node w' = node w /\ clock w' = clock w /\ elapse w' = elapse w
  /\ execute w' = execute w /\ faults w' = faults w.

(** *** Contract Gateway *)

(** Modelled from the spec: the Gateway's interface resolution, which is not
    in the sources.  On first use of a contract its interface description is
    fetched and kept; failure to fetch it is [InterfaceResolutionError]. *)
Definition interfaceOf (facade : Facade) (address : Address) : Async World Abi :=
  fun w =>
    match interfaces w !! address with
    | Some a => (w, Resolved a)
    | None =>
        match getClassAt (endpoint facade) address w with
        | (w', Resolved cls) =>
            match abi cls with
            | Some a => (remember address a w', Resolved a)
            | None => (w', Rejected (InterfaceResolutionError address))
            end
        | (w', Rejected _) => (w', Rejected (InterfaceResolutionError address))
        end
    end.

(** Modelled from the spec: the Gateway's [read], which is not in the
    sources, on a contract given by its address. *)
Definition readAt (facade : Facade) (address : Address) (method : string)
    (args : Calldata) : Async World CairoValue :=
  a <- interfaceOf facade address ;;
  contract <- newContract a address (endpoint facade) ;;
  callMethod "contract" contract method args.

(** Modelled from the spec: the Gateway's [read(role, method, args)], which
    is not in the sources. *)
Definition read (facade : Facade) (role : string) (method : string)
    (args : Calldata) : Async World CairoValue :=
  address <- lift_outcome (resolve (registry facade) role) ;;
  readAt facade address method args.

Definition with_faults (fs : list bool) (w : World) : World :=
  {| node := node w; log := log w; clock := clock w; elapse := elapse w;
     execute := execute w; faults := fs; interfaces := interfaces w |}.

(** Modelled from the spec: the RPC boundary's [invoke], which is not in the
    sources: the transaction is broadcast, or the transport fails and nothing
    is broadcast. *)
Definition broadcast (tx : Tx) : Async World Tx :=
  fun w =>
    match faults w with
    | true :: rest =>
        (emit (BroadcastFailed tx) (with_faults rest w),
         Rejected (ProviderError "transient failure"))
    | false :: rest => (emit (Broadcast tx) (with_faults rest w), Resolved tx)
    | [] => (emit (Broadcast tx) w, Resolved tx)
    end.

(** Modelled from the spec: the Gateway's [write], which is not in the
    sources, on a contract given by its address: the interface is resolved
    as for a read, the transaction is handed to the transport, and the handle
    of the pending transaction is returned at once. *)
Definition writeAt (facade : Facade) (address : Address) (method : string)
    (args : Calldata) (account : Account) : Async World Tx :=
  interfaceOf facade address ;;;
  broadcast {| tx_contract := address; tx_entrypoint := method;
               tx_calldata := args; tx_sender := account_address account |}.

(** Modelled from the spec: the Gateway's [write(role, method, args,
    account)], which is not in the sources. *)
Definition write (facade : Facade) (role : string) (method : string)
    (args : Calldata) (account : Account) : Async World Tx :=
  address <- lift_outcome (resolve (registry facade) role) ;;
  writeAt facade address method args account.

Definition with_node (n : Node) (w : World) : World :=
  {| node := n; log := log w; clock := clock w; elapse := elapse w;
     execute := execute w; faults := faults w; interfaces := interfaces w |}.

(** Modelled from the spec: awaiting the inclusion of a pending transaction,
    which is not in the sources: the chain includes it, or reverts it. *)
Definition awaitInclusion (tx : Tx) : Async World unit :=
  fun w =>
    match execute w tx (node w) with
    | inl n => (emit (Included tx) (with_node n w), Resolved tt)
    | inr reason => (emit (Reverted tx) w, Rejected (RevertError reason))
    end.

(** *** Approval Coordinator *)

Definition approveTx (currencyAddress spender : Address) (amount : Z)
    (account : Account) : Tx :=
  {| tx_contract := currencyAddress; tx_entrypoint := "approve";
     tx_calldata := [Addr spender; Num amount];
     tx_sender := account_address account |}.

(** Modelled from the spec: the Approval Coordinator's [ensureAllowance],
    which is not in the sources.  Read the current allowance; if it covers
    the required amount, return; otherwise submit an approval for exactly the
    required amount and await its inclusion.  A failed approval is terminal. *)
Definition ensureAllowance (facade : Facade) (account : Account)
    (spenderRole : string) (currencyAddress : Address) (requiredAmount : Z)
  : Async World unit :=
  spender <- lift_outcome (resolve (registry facade) spenderRole) ;;
  current <- readAt facade currencyAddress "allowance"
                    [Addr (account_address account); Addr spender] ;;
  match current with
  | CEnum _ => throw (ApprovalError "allowance is not an amount")
  | CNumber current =>
      if (requiredAmount <=? current)%Z then ret tt
      else
        try_catch
          (tx <- writeAt facade currencyAddress "approve"
                         [Addr spender; Num requiredAmount] account ;;
           awaitInclusion tx)
          (fun e => throw (ApprovalError (describe e)))
  end.

(** *** Order Intent Builder *)

Inductive Amount : Type :=
| Fixed (amount : Z)
| Range (start end_ : Z).

(** Modelled from the spec: the OrderIntent of the data model, which is not
    in the sources. *)
Record OrderIntent : Type := {
  brokerId : Address;
  tokenAddress : Address;
  tokenId : option Z;
  amountRange : Amount;
  currencyAddress : Address;
  expiration : nat;
  nonce : Z
}.

(** What [build] is given: the fields and whether the order is for a whole
    collection. *)
Record OrderFields : Type := {
  collectionLevel : bool;
  fields : OrderIntent
}.

Definition valid_amount (a : Amount) : bool :=
  match a with
  | Fixed amount => (0 <=? amount)%Z
  | Range start end_ => (0 <=? start)%Z && (0 <=? end_)%Z && (start <=? end_)%Z
  end.

Definition valid_tokenId (collection : bool) (id : option Z) : bool :=
  match id with
  | Some _ => negb collection
  | None => collection
  end.

(** Modelled from the spec: the validation of [build], which is not in the
    sources. *)
Definition valid (f : OrderFields) (clock : nat) : bool :=
  valid_amount (amountRange (fields f))
  && bool_decide (clock < expiration (fields f))
  && valid_tokenId (collectionLevel f) (tokenId (fields f)).

(** Modelled from the spec: the canonical field ordering, which is not in
    the sources; it is used for the hash and for the submitted payload. *)
Definition canonical (i : OrderIntent) : Calldata :=
  ([ Addr (brokerId i); Addr (tokenAddress i) ]
   ++ match tokenId i with
      | Some id => [Num 1; Num id]
      | None => [Num 0]
      end
   ++ match amountRange i with
      | Fixed amount => [Num amount; Num amount]
      | Range start end_ => [Num start; Num end_]
      end
   ++ [ Addr (currencyAddress i); Num (Z.of_nat (expiration i)); Num (nonce i) ])%list.

(** The amount an order needs approved: the start amount, as the
    repository's own caller of [createOffer] passes it. *)
Definition requiredAmount (i : OrderIntent) : Z :=
  match amountRange i with
  | Fixed amount => amount
  | Range start _ => start
  end.

Section Submitter.

(** The digest that turns the canonical encoding into the order hash is not
    described any further: any function. *)
Variable digest : Calldata -> Z.

(** Modelled from the spec: the Intent Builder's [build], which is not in
    the sources. *)
Definition build (f : OrderFields) (clock : nat) : option (OrderIntent * Z) :=
  if valid f clock then Some (fields f, digest (canonical (fields f)))
  else None.

(** *** Order Submitter *)

Definition maxRetries : nat := 3.

(** Modelled from the spec: the bounded retry of a broadcast with
    exponential backoff, which is not in the sources.  Only a transient
    failure of the transport is retried. *)
Fixpoint writeWithRetry (retries backoff : nat) (facade : Facade)
    (address : Address) (method : string) (args : Calldata) (account : Account)
  : Async World Tx :=
  fun w =>
    match writeAt facade address method args account w with
    | (w', Rejected (ProviderError m)) =>
        match retries with
        | O => (w', Rejected (ProviderError m))
        | S retries' =>
            writeWithRetry retries' (2 * backoff) facade address method args
                           account (fst (sleep backoff w'))
        end
    | (w', r) => (w', r)
    end.

(** Modelled from the spec: the Order Submitter's [submit], which is not in
    the sources.  Build; ensure the allowance; broadcast the order creation
    to the executor; await its inclusion; return the hash.  The order is an
    offer: what is approved is the currency. *)
Definition submit (facade : Facade) (account : Account) (f : OrderFields)
  : Async World Z :=
  t <- now ;;
  match build f t with
  | None => throw (SubmissionError "build" "invalid order")
  | Some (intent, hash) =>
      ensureAllowance facade account "executor" (currencyAddress intent)
                      (requiredAmount intent) ;;;
      executor <- lift_outcome (resolve (registry facade) "executor") ;;
      tx <- try_catch
              (writeWithRetry maxRetries 1 facade executor "create_order"
                              (canonical intent) account)
              (fun e => throw (SubmissionError "broadcast" (describe e))) ;;
      try_catch (awaitInclusion tx)
                (fun e => throw (SubmissionError "inclusion" (describe e))) ;;;
      ret hash
  end.

End Submitter.

(** *** Order Status Resolver *)

(** Modelled from the spec: the client-side OrderStatus of the data model,
    which is not in the sources. *)
Inductive OrderStatus : Type :=
| PendingApproval | PendingSubmission | Open | Executed | Cancelled | Expired
| Unknown.

Definition OrderStatus_name (s : OrderStatus) : string :=
  match s with
  | PendingApproval => "PendingApproval"
  | PendingSubmission => "PendingSubmission"
  | Open => "Open"
  | Executed => "Executed"
  | Cancelled => "Cancelled"
  | Expired => "Expired"
  | Unknown => "Unknown"
  end.

(** Modelled from the spec: the mapping rule of the Status Resolver, which
    is not in the sources: a table from chain tags to [OrderStatus], and
    [Unknown] for a tag that is not in it. *)
Definition translate (table : list (string * OrderStatus)) (tag : string)
  : OrderStatus :=
  match List.find (fun entry => bool_decide (fst entry = tag)) table with
  | Some entry => snd entry
  | None => Unknown
  end.

Definition maxBackoff : nat := 8.

(** Modelled from the spec: the polling loop of [awaitStatus], which is not
    in the sources.  Each round is one single read (the sources'
    [getOrderStatus]); a status among the targets is returned; at or past
    the deadline the poll gives up with [TimeoutError]; otherwise it sleeps
    for the backoff, but not beyond the deadline, and doubles the backoff up
    to [maxBackoff].  [fuel] bounds the number of rounds. *)
Fixpoint poll (fuel backoff : nat) (config : Core.Config) (orderHash : Z)
    (targetStatuses : list string) (deadline : nat) : Async World string :=
  match fuel with
  | O => throw (Error "poll budget exhausted")
  | S fuel' =>
      r <- Core.getOrderStatus config {| Core.orderHash := orderHash |} ;;
      if bool_decide (Core.orderStatus r ∈ targetStatuses) then
        ret (Core.orderStatus r)
      else
        t <- now ;;
        if bool_decide (deadline <= t) then throw TimeoutError
        else
          sleep (backoff `min` (deadline - t)) ;;;
          poll fuel' ((2 * backoff) `min` maxBackoff) config orderHash
               targetStatuses deadline
  end.

(** Modelled from the spec: the Status Resolver's [awaitStatus(orderHash,
    targetStatuses, deadline)], which is not in the sources; [deadline] is a
    time on the world's clock. *)
Definition awaitStatus (config : Core.Config) (orderHash : Z)
    (targetStatuses : list string) (deadline : nat) : Async World string :=
  fun w =>
    poll (S (deadline - clock w)) 1 config orderHash targetStatuses deadline w.

(** The order is stuck outside the targets for [span] ticks from [w] on: at
    each of these moments a single read would resolve with a status that is
    no target. *)
Definition stuck (config : Core.Config) (orderHash : Z)
    (targetStatuses : list string) (w : World) (span : nat) : Prop :=
  forall d, d <= span ->
    exists s,
      snd (Core.getOrderStatus config {| Core.orderHash := orderHash |}
             (with_node (Nat.iter d (elapse w) (node w)) w))
      = Resolved {| Core.orderStatus := s |}
      /\ s ∉ targetStatuses.

End Lifecycle.

(** ** Concrete chains and worlds, for the examples *)

Module Examples.

Import Core Lifecycle.

(** A one-hot enum over [tags] whose active variant is [active]. *)
Definition oneHot (tags : list string) (active : string) : CairoCustomEnum :=
  {| variant :=
       (fun t => (t, if bool_decide (t = active) then Some [] else None)) <$> tags |}.

Definition executorAbi : Abi := ["get_order_status"; "create_order"; "cancel_order"].

Definition currencyAbi : Abi := ["allowance"; "approve"].

Definition devExecutor : Address :=
  "0x4976035b0b9b4a651751508b8df0ee054f2b25427625949ffc6487ea4439fa".

Definition devEth : Address :=
  "0x200184bde479ccffa50a89485417c907bc1d3779f9b1863d2158733135facce".

(** A chain whose executor reports [tag] for every order and whose currency
    reports the allowance [allowed] for every owner and spender. *)
Definition chain (tag : string) (allowed : Z) : Node :=
  {| classAt := fun a =>
       if bool_decide (a = devExecutor) then Resolved {| abi := Some executorAbi |}
       else if bool_decide (a = devEth) then Resolved {| abi := Some currencyAbi |}
       else Rejected (ProviderError "contract not found");
     callResult := fun a method _ =>
       if bool_decide (a = devExecutor) then
         Resolved (CEnum (oneHot ["Open"; "Executed"; "Frozen"; "CancelledUser"] tag))
       else Resolved (CNumber allowed) |}.

(** A chain where the class at every address has no interface description. *)
Definition chainWithoutAbi : Node :=
  {| classAt := fun _ => Resolved {| abi := None |};
     callResult := fun _ _ _ => Rejected (ProviderError "unreachable") |}.

(** A world on chain [n]: nothing logged, nothing cached, a chain that does
    not move on its own and includes every transaction unchanged. *)
Definition worldOn (n : Node) : World :=
  {| node := n; log := []; clock := 0; elapse := fun n => n;
     execute := fun _ n => inl n; faults := []; interfaces := ∅ |}.

Definition devConfig : Config :=
  {| starknetProvider := {| nodeUrl := "http://localhost:5050" |};
     starknetExecutorContract := devExecutor;
     starknetCurrencyContract := devEth |}.

Definition offerer : Account :=
  {| account_address := "0x517ececd29116499f4a1b64b094da79ba08dfd54a3edaa316134c41f8160973" |}.

(** To have a hash to look at: the sum of the numbers of the encoding. *)
Definition sumDigest (c : Calldata) : Z :=
  foldr (fun a acc => match a with Num z => (z + acc)%Z | Addr _ => acc end) 0%Z c.

(** An offer on one token for a fixed amount, open until tick 1000. *)
Definition offerOf (amount : Z) : OrderFields :=
  {| collectionLevel := false;
     fields := {| brokerId := "0x123"; tokenAddress := "0x42c3";
                  tokenId := Some 909%Z; amountRange := Fixed amount;
                  currencyAddress := devEth; expiration := 1000; nonce := 1 |} |}.

Definition approvalOf (amount : Z) : Tx := approveTx devEth devExecutor amount offerer.

Definition creationOf (amount : Z) : Tx :=
  {| tx_contract := devExecutor; tx_entrypoint := "create_order";
     tx_calldata := canonical (fields (offerOf amount));
     tx_sender := account_address offerer |}.

Definition devFacade : Facade :=
  {| registry := Contracts.DEV_CONTRACTS;
     endpoint := {| nodeUrl := "http://localhost:5050" |} |}.

End Examples.

(** ** The offer example script

    The script that creates an offer and reads its status back:
    [createOfferAndCheckStatus], [main] and the top-level
    [main().catch(...)]. *)

Module OfferScript.

Import Core.

Record OfferV1 : Type := {
  brokerId : Address;
  tokenAddress : Address;
  tokenId : Z;
  startAmount : Z;
  currencyAddress : Address
}.

Record ApproveInfo : Type := {
  approve_currencyAddress : Address;
  amount : Z
}.

(** The argument of the core's [createOffer]. *)
Record CreateOfferParameters : Type := {
  starknetAccount : React.AccountInterface;
  offer : OfferV1;
  approveInfo : ApproveInfo
}.

(** What the script reads of the result of [createOffer]. *)
Record CreateOfferResult : Type := { created_orderHash : Z }.

(** What the script reads of [Accounts]. *)
Record Accounts : Type := {
  offerer : React.AccountInterface;
  broker_listing : React.AccountInterface
}.

(** What the script reads of the result of [mintTokens]. *)
Record MintResult : Type := {
  minted_tokenId : Z;
  orderAmount : Z
}.

Inductive Level : Type := info | error.

(** The values the script passes to the logger after the message. *)
Inductive LogValue : Type :=
| LogHash (orderHash : Z)
| LogStatus (orderStatus : string)
| LogFailure (e : Failure).

Record LogLine : Type := {
  level : Level;
  message : string;
  values : list LogValue
}.

(** The running script: the world its actions run in, what the logger has
    written, and the exit code once [process.exit] has been called. *)
Record Process : Type := {
  world : World;
  output : list LogLine;
  exitCode : option Z
}.

Definition logger_info (message : string) (values : list LogValue)
  : Async Process unit :=
  fun p => ({| world := world p;
               output := output p ++ [{| level := info; message := message;
                                         values := values |}];
               exitCode := exitCode p |}, Resolved tt).

Definition logger_error (message : string) (values : list LogValue)
  : Async Process unit :=
  fun p => ({| world := world p;
               output := output p ++ [{| level := error; message := message;
                                         values := values |}];
               exitCode := exitCode p |}, Resolved tt).

(** [process.exit(code)] *)
Definition process_exit (code : Z) (p : Process) : Process :=
  {| world := world p; output := output p; exitCode := Some code |}.

Definition in_world {A} (m : Async World A) : Async Process A :=
  zoom world
       (fun w p => {| world := w; output := output p; exitCode := exitCode p |})
       m.

Section Script.

(** The core's [createOffer] is imported, not defined here: any async
    function of the world. *)
Variable createOffer : Config -> CreateOfferParameters -> Async World CreateOfferResult.

Definition createOfferAndCheckStatus (config : Config) (accounts : Accounts)
    (offer : OfferV1) : Async Process Z :=
  logger_info "Creating offer..." [] ;;;
  created <-
    in_world
      (createOffer config
         {| starknetAccount := offerer accounts;
            offer := offer;
            approveInfo :=
              {| approve_currencyAddress := starknetCurrencyContract config;
                 amount := startAmount offer |} |}) ;;
  let orderHash := created_orderHash created in
  logger_info "Order hash:" [LogHash orderHash] ;;;
  logger_info "Fetching order status..." [] ;;;
  status <- in_world (getOrderStatus config {| Core.orderHash := orderHash |}) ;;
  let orderStatus := Core.orderStatus status in
  logger_info "Order status:" [LogStatus orderStatus] ;;;
  ret orderHash.

(** [setupAccounts] and [mintTokens] are imported helpers, [config] and
    [nftContract] the values imported from the script's configuration. *)
Variable setupAccounts : Config -> Async World Accounts.
Variable mintTokens : Config -> Accounts -> string -> bool -> Async World MintResult.
Variable config : Config.
Variable nftContract : string.

Definition main : Async Process unit :=
  logger_info "Starting the offer creation and status check process..." [] ;;;
  accounts <- in_world (setupAccounts config) ;;
  minted <- in_world (mintTokens config accounts nftContract true) ;;
  let offer :=
    {| brokerId := React.address (broker_listing accounts);
       tokenAddress := nftContract;
       tokenId := minted_tokenId minted;
       startAmount := orderAmount minted;
       currencyAddress := starknetCurrencyContract config |} in
  createOfferAndCheckStatus config accounts offer ;;;
  ret tt.

(** The statement at the top level of the script:
    [main().catch((error) => { logger.error(...); process.exit(1); })]. *)
Definition start (p : Process) : Process :=
  match main p with
  | (p', Resolved _) => p'
  | (p', Rejected e) =>
      process_exit 1 (fst (logger_error "An error occurred:" [LogFailure e] p'))
  end.

End Script.

End OfferScript.

(** ** Addresses as numbers *)

Module Hex.

(** The value of a hexadecimal digit, as [BigInt] reads it, from its
    character code: [0]-[9], [a]-[f], [A]-[F]. *)
Definition digit (c : Ascii.ascii) : option Z :=
  let code := Z.of_nat (Ascii.nat_of_ascii c) in
  if (48 <=? code)%Z && (code <=? 57)%Z then Some (code - 48)%Z
  else if (97 <=? code)%Z && (code <=? 102)%Z then Some (code - 87)%Z
  else if (65 <=? code)%Z && (code <=? 70)%Z then Some (code - 55)%Z
  else None.

Fixpoint digits (acc : Z) (s : string) : option Z :=
  match s with
  | EmptyString => Some acc
  | String c rest =>
      match digit c with
      | Some d => digits (16 * acc + d) rest
      | None => None
      end
  end.

(** The number a [0x...] literal denotes; [None] if it is not one.  The
    prefix is the characters 48 and 120, and at least one digit follows. *)
Definition value (s : string) : option Z :=
  match s with
  | String zero (String x (String c rest)) =>
      if (Ascii.nat_of_ascii zero =? 48)%nat && (Ascii.nat_of_ascii x =? 120)%nat
      then digits 0 (String c rest)
      else None
  | _ => None
  end.

(** A contract address: a non-zero number below [2^251]. *)
Definition is_address (s : string) : bool :=
  match value s with
  | Some z => (0 <? z)%Z && (z <? 2 ^ 251)%Z
  | None => false
  end.

End Hex.

(** ** Stand-ins for the helpers the script imports and further values, for
    the examples *)

Module ScriptExamples.

Import Core Examples OfferScript.

Definition accounts : Accounts :=
  {| offerer := {| React.address := "0x517e" |};
     broker_listing := {| React.address := "0xb0b" |} |}.

(** A [createOffer] that broadcasts one transaction to the executor and
    answers the hash 42. *)
Definition createOffer_ok (config : Config) (parameters : CreateOfferParameters)
  : Async World CreateOfferResult :=
  fun w =>
    (emit (Broadcast {| tx_contract := starknetExecutorContract config;
                        tx_entrypoint := "create_order";
                        tx_calldata := [Num (startAmount (offer parameters))];
                        tx_sender := React.address (starknetAccount parameters) |}) w,
     Resolved {| created_orderHash := 42 |}).

(** A [createOffer] that fails. *)
Definition createOffer_fails (config : Config) (parameters : CreateOfferParameters)
  : Async World CreateOfferResult :=
  throw (Error "insufficient balance").

Definition setupAccounts_ok (config : Config) : Async World Accounts := ret accounts.

Definition mintTokens_ok (config : Config) (a : Accounts) (nft : string)
    (isOffer : bool) : Async World MintResult :=
  ret {| minted_tokenId := 909; orderAmount := 100 |}.

Definition mintTokens_fails (config : Config) (a : Accounts) (nft : string)
    (isOffer : bool) : Async World MintResult :=
  throw (Error "mint reverted").

Definition processOn (n : Node) : Process :=
  {| world := worldOn n; output := []; exitCode := None |}.

(** A configuration whose executor address holds no contract on the example
    chains. *)
Definition strayConfig : Config :=
  {| starknetProvider := {| nodeUrl := "http://localhost:5050" |};
     starknetExecutorContract := "0xdead";
     starknetCurrencyContract := devEth |}.

Definition sampleOffer : OfferV1 :=
  {| brokerId := "0xb0b"; tokenAddress := "0x42c3"; tokenId := 909;
     startAmount := 100; currencyAddress := devEth |}.

End ScriptExamples.

(** * Properties *)

Import Core.

(** Membership in a concrete list, by evaluation. *)
Ltac in_list := apply (bool_decide_unpack _); vm_compute; exact I.

(** An event that differs from every element of a concrete list is not in
    it. *)
Ltac not_in_list H :=
  repeat (apply elem_of_cons in H as [[=]|H]); by apply elem_of_nil in H.

(** ** Worlds *)

Lemma events_app (w w' : World) (evs : list Event) :
  log w' = log w ++ evs -> events w w' = evs.
Proof. intros H. unfold events. rewrite H. apply drop_app_length. Qed.

Lemma log_emit (e : Event) (w : World) : log (emit e w) = log w ++ [e].
Proof. reflexivity. Qed.

(** ** getOrderStatus *)

(** The run of [getOrderStatus], case by case on what the chain answers. *)
Lemma getOrderStatus_run (config : Config) (parameters : GetOrderStatusParameters)
    (w : World) :
  getOrderStatus config parameters w =
  let executor := starknetExecutorContract config in
  let calldata := [Num (orderHash parameters)] in
  match classAt (node w) executor with
  | Rejected e => (emit (GetClassAt executor) w, Rejected e)
  | Resolved cls =>
      match abi cls with
      | None => (emit (GetClassAt executor) w, Rejected (Error "no abi."))
      | Some [] =>
          (emit (GetClassAt executor) w,
           Rejected (Error "Unable to determine Cairo version"))
      | Some a =>
          let w1 := emit (NewContract executor) (emit (GetClassAt executor) w) in
          if bool_decide ("get_order_status" ∈ a) then
            let w2 := emit (CallContract executor "get_order_status" calldata) w1 in
            match callResult (node w) executor "get_order_status" calldata with
            | Resolved (CEnum e) => (w2, Resolved {| orderStatus := activeVariant e |})
            | Resolved (CNumber _) =>
                (w2, Rejected (TypeError "orderStatus.activeVariant is not a function"))
            | Rejected e => (w2, Rejected e)
            end
          else
            (w1, Rejected
                   (TypeError "orderbookContract.get_order_status is not a function"))
      end
  end.
Proof.
  unfold getOrderStatus, bind, getClassAt. cbn.
  destruct (classAt (node w) _) as [cls|e]; [|reflexivity].
  destruct (abi cls) as [[|entry a]|]; [reflexivity| |reflexivity].
  unfold newContract, callMethod, bind. cbn.
  case_bool_decide; [|reflexivity]. cbn.
  destruct (callResult _ _ _ _) as [[z|e]|e]; reflexivity.
Qed.

(** The run on a chain whose executor has the entry point. *)
Lemma getOrderStatus_run_callable (config : Config)
    (parameters : GetOrderStatusParameters) (w : World) (a : Abi) :
  classAt (node w) (starknetExecutorContract config) = Resolved {| abi := Some a |} ->
  "get_order_status" ∈ a ->
  getOrderStatus config parameters w =
  let executor := starknetExecutorContract config in
  let calldata := [Num (orderHash parameters)] in
  let w2 := emit (CallContract executor "get_order_status" calldata)
              (emit (NewContract executor) (emit (GetClassAt executor) w)) in
  match callResult (node w) executor "get_order_status" calldata with
  | Resolved (CEnum e) => (w2, Resolved {| orderStatus := activeVariant e |})
  | Resolved (CNumber _) =>
      (w2, Rejected (TypeError "orderStatus.activeVariant is not a function"))
  | Rejected e => (w2, Rejected e)
  end.
Proof.
  intros Hcls Hin. rewrite getOrderStatus_run. cbn zeta. rewrite Hcls. cbn [abi].
  destruct a as [|entry a]; [by apply elem_of_nil in Hin|].
  by rewrite bool_decide_true.
Qed.

Lemma activeVariant_isActive (e : CairoCustomEnum) (tag : string) :
  isActive e tag -> activeVariant e = tag.
Proof.
  intros [[payload Hin] Huniq]. unfold activeVariant.
  destruct (List.find _ (variant e)) as [[t o]|] eqn:Hfind.
  - apply find_some in Hfind as [Hmem Hdef]. cbn in *.
    destruct o as [p|]; [|discriminate].
    apply (Huniq t p). by apply list_elem_of_In.
  - apply list_elem_of_In in Hin.
    by pose proof (find_none _ _ Hfind _ Hin) as Hnone.
Qed.

Lemma isActive_oneHot (tags : list string) (tag : string) :
  tag ∈ tags -> isActive (Examples.oneHot tags tag) tag.
Proof.
  intros Hin. split.
  - exists []. cbn. apply list_elem_of_fmap. exists tag. split; [|done].
    by rewrite bool_decide_true.
  - intros t payload Ht. cbn in Ht. apply list_elem_of_fmap in Ht as (t' & Heq & _).
    case_bool_decide; naive_solver.
Qed.

(** C1, as the code has it.  When the executor's interface has
    [get_order_status] and the chain reports a status whose one active tag is
    [tag], [getOrderStatus] resolves with that very tag as a string: there is
    no translation table, every tag maps to itself, known to the client or
    not, and none makes the call fail. *)
Theorem getOrderStatus_returns_active_tag
    (config : Config) (parameters : GetOrderStatusParameters) (w : World)
    (a : Abi) (e : CairoCustomEnum) (tag : string) :
  classAt (node w) (starknetExecutorContract config) = Resolved {| abi := Some a |} ->
  "get_order_status" ∈ a ->
  callResult (node w) (starknetExecutorContract config) "get_order_status"
             [Num (orderHash parameters)] = Resolved (CEnum e) ->
  isActive e tag ->
  snd (getOrderStatus config parameters w) = Resolved {| orderStatus := tag |}.
Proof.
  intros Hcls Hin Hcall Hact.
  rewrite (getOrderStatus_run_callable _ _ _ a) by done. cbn zeta.
  rewrite Hcall. cbn. by rewrite (activeVariant_isActive _ _ Hact).
Qed.

Lemma getOrderStatus_returns_active_tag_witness :
  snd (getOrderStatus Examples.devConfig {| orderHash := 7 |}
         (Examples.worldOn (Examples.chain "CancelledUser" 0)))
  = Resolved {| orderStatus := "CancelledUser" |}.
Proof.
  apply (getOrderStatus_returns_active_tag Examples.devConfig {| orderHash := 7 |}
           (Examples.worldOn (Examples.chain "CancelledUser" 0))
           Examples.executorAbi
           (Examples.oneHot ["Open"; "Executed"; "Frozen"; "CancelledUser"] "CancelledUser")).
  - reflexivity.
  - in_list.
  - reflexivity.
  - apply isActive_oneHot. in_list.
Defined.

(** C1, as the spec states it, fails.  On a chain that reports the tag
    [Frozen], [getOrderStatus] answers [Frozen], not [Unknown]; and no table
    from chain tags to [OrderStatus], with [Unknown] for the tags it lacks,
    describes what [getOrderStatus] answers. *)
Lemma getOrderStatus_unknown_tag_not_Unknown :
  snd (getOrderStatus Examples.devConfig {| orderHash := 7 |}
         (Examples.worldOn (Examples.chain "Frozen" 0)))
  = Resolved {| orderStatus := "Frozen" |}
  /\ ~ (exists table : list (string * Lifecycle.OrderStatus),
          forall (config : Config) (parameters : GetOrderStatusParameters)
                 (w : World) (a : Abi) (e : CairoCustomEnum) (tag : string),
            classAt (node w) (starknetExecutorContract config)
              = Resolved {| abi := Some a |} ->
            "get_order_status" ∈ a ->
            callResult (node w) (starknetExecutorContract config) "get_order_status"
                       [Num (orderHash parameters)] = Resolved (CEnum e) ->
            isActive e tag ->
            snd (getOrderStatus config parameters w)
            = Resolved {| orderStatus :=
                            Lifecycle.OrderStatus_name (Lifecycle.translate table tag) |}).
Proof.
  split; [reflexivity|].
  intros [table Htable].
  specialize (Htable Examples.devConfig {| orderHash := 7 |}
                (Examples.worldOn (Examples.chain "Frozen" 0))
                Examples.executorAbi
                (Examples.oneHot ["Open"; "Executed"; "Frozen"; "CancelledUser"] "Frozen")
                "Frozen").
  assert (Hin : "get_order_status" ∈ Examples.executorAbi)
    by in_list.
  assert (Hact : isActive (Examples.oneHot ["Open"; "Executed"; "Frozen"; "CancelledUser"]
                             "Frozen") "Frozen")
    by (apply isActive_oneHot; in_list).
  specialize (Htable eq_refl Hin eq_refl Hact).
  destruct (Lifecycle.translate table "Frozen"); discriminate Htable.
Qed.

(** C2.  If the class at the executor address has no interface description
    (its [abi] is [undefined]), [getOrderStatus] rejects with the error
    [no abi.] and the one thing it has sent is the class lookup: no contract
    object was built and no status was read. *)
Theorem getOrderStatus_no_abi
    (config : Config) (parameters : GetOrderStatusParameters) (w : World) :
  classAt (node w) (starknetExecutorContract config) = Resolved {| abi := None |} ->
  getOrderStatus config parameters w
  = (emit (GetClassAt (starknetExecutorContract config)) w, Rejected (Error "no abi."))
  /\ events w (fst (getOrderStatus config parameters w))
     = [GetClassAt (starknetExecutorContract config)]
  /\ (forall address,
        NewContract address ∉ events w (fst (getOrderStatus config parameters w)))
  /\ (forall address method calldata,
        CallContract address method calldata
          ∉ events w (fst (getOrderStatus config parameters w))).
Proof.
  intros Hcls.
  assert (Hrun : getOrderStatus config parameters w
                 = (emit (GetClassAt (starknetExecutorContract config)) w,
                    Rejected (Error "no abi."))).
  { rewrite getOrderStatus_run. cbn zeta. by rewrite Hcls. }
  rewrite Hrun. cbn [fst].
  rewrite (events_app w _ [GetClassAt (starknetExecutorContract config)])
    by apply log_emit.
  repeat split; intros; by intros [=]%list_elem_of_singleton.
Qed.

Lemma getOrderStatus_no_abi_witness :
  getOrderStatus Examples.devConfig {| orderHash := 7 |}
                 (Examples.worldOn Examples.chainWithoutAbi)
  = (emit (GetClassAt Examples.devExecutor) (Examples.worldOn Examples.chainWithoutAbi),
     Rejected (Error "no abi.")).
Proof.
  apply (getOrderStatus_no_abi Examples.devConfig {| orderHash := 7 |}
           (Examples.worldOn Examples.chainWithoutAbi)).
  reflexivity.
Defined.

(** C9.  [getOrderStatus] reads the status from
    [config.starknetExecutorContract].  Whatever the chain answers, what it
    appends to the log is a non-empty prefix of class lookup, contract
    construction and [get_order_status] call, all three at that address; no
    other address of the configuration plays a part; and a status it
    resolves with is the one the chain reports at that address.  Whenever
    the class at that address has the entry point, all three are sent and
    the outcome is the chain's answer to the call at that address: the
    active variant of the enum it reports, or the rejection of the call.
    What the chain would answer at any other address does not matter. *)
Theorem getOrderStatus_reads_executor
    (config : Config) (parameters : GetOrderStatusParameters) (w : World) :
  (exists k, 1 <= k
     /\ events w (fst (getOrderStatus config parameters w))
        = take k (getOrderStatus_script config parameters))
  /\ (forall other : Address,
        getOrderStatus {| starknetProvider := starknetProvider config;
                          starknetExecutorContract := starknetExecutorContract config;
                          starknetCurrencyContract := other |} parameters w
        = getOrderStatus config parameters w)
  /\ match snd (getOrderStatus config parameters w) with
     | Resolved r =>
         exists a e,
           classAt (node w) (starknetExecutorContract config)
             = Resolved {| abi := Some a |}
           /\ callResult (node w) (starknetExecutorContract config)
                         "get_order_status" [Num (orderHash parameters)]
              = Resolved (CEnum e)
           /\ orderStatus r = activeVariant e
     | Rejected _ => True
     end
  /\ (forall a : Abi,
        classAt (node w) (starknetExecutorContract config)
          = Resolved {| abi := Some a |} ->
        "get_order_status" ∈ a ->
        events w (fst (getOrderStatus config parameters w))
        = getOrderStatus_script config parameters
        /\ snd (getOrderStatus config parameters w)
           = match callResult (node w) (starknetExecutorContract config)
                              "get_order_status" [Num (orderHash parameters)] with
             | Resolved (CEnum e) => Resolved {| orderStatus := activeVariant e |}
             | Resolved (CNumber _) =>
                 Rejected (TypeError "orderStatus.activeVariant is not a function")
             | Rejected err => Rejected err
             end)
  /\ (forall w' : World,
        classAt (node w') (starknetExecutorContract config)
          = classAt (node w) (starknetExecutorContract config) ->
        (forall method calldata,
           callResult (node w') (starknetExecutorContract config) method calldata
           = callResult (node w) (starknetExecutorContract config) method calldata) ->
        snd (getOrderStatus config parameters w')
        = snd (getOrderStatus config parameters w)).
Proof.
  split_and!.
  - rewrite getOrderStatus_run. cbn zeta.
    destruct (classAt (node w) _) as [[[[|entry a]|]]|err]; cbn [abi].
    + exists 1. split; [lia|]. by apply events_app.
    + case_bool_decide.
      * exists 3. split; [lia|].
        destruct (callResult _ _ _ _) as [[z|e]|err];
          cbn [fst]; apply events_app; cbn; by rewrite <- !app_assoc.
      * exists 2. split; [lia|]. cbn [fst]. apply events_app. cbn.
        by rewrite <- !app_assoc.
    + exists 1. split; [lia|]. by apply events_app.
    + exists 1. split; [lia|]. by apply events_app.
  - intros other. by rewrite !getOrderStatus_run.
  - rewrite getOrderStatus_run. cbn zeta.
    destruct (classAt (node w) _) as [[[[|entry a]|]]|err]; cbn; try done.
    case_bool_decide; cbn; try done.
    destruct (callResult _ _ _ _) as [[z|e]|err] eqn:Hcall; cbn; try done.
    by exists (entry :: a), e.
  - intros a Hcls Hin. rewrite (getOrderStatus_run_callable _ _ _ a) by done.
    cbn zeta. split.
    + destruct (callResult _ _ _ _) as [[z|e]|err];
        cbn [fst]; apply events_app; cbn; by rewrite <- !app_assoc.
    + by destruct (callResult _ _ _ _) as [[z|e]|err].
  - intros w' Hcls Hcall. rewrite !getOrderStatus_run. cbn zeta.
    rewrite Hcls, Hcall.
    destruct (classAt (node w) _) as [[[[|entry a]|]]|err]; cbn [abi]; try done.
    case_bool_decide; [|done].
    by destruct (callResult _ _ _ _) as [[z|e]|err].
Qed.

Lemma getOrderStatus_reads_executor_witness :
  events (Examples.worldOn (Examples.chain "Open" 0))
         (fst (getOrderStatus Examples.devConfig {| orderHash := 7 |}
                 (Examples.worldOn (Examples.chain "Open" 0))))
  = [ GetClassAt Examples.devExecutor; NewContract Examples.devExecutor;
      CallContract Examples.devExecutor "get_order_status" [Num 7] ]
  /\ snd (getOrderStatus Examples.devConfig {| orderHash := 7 |}
            (Examples.worldOn (Examples.chain "Open" 0)))
     = Resolved {| orderStatus := "Open" |}.
Proof.
  destruct (getOrderStatus_reads_executor Examples.devConfig {| orderHash := 7 |}
              (Examples.worldOn (Examples.chain "Open" 0)))
    as (_ & _ & _ & Hread & _).
  apply (Hread Examples.executorAbi); [reflexivity|in_list].
Defined.

(** ** useCancelCollectionOffer *)

(** C8.  Whatever the core's [cancelCollectionOffer] does, the hook's
    [cancel] resolves: it never rejects.  It calls [setStatus] twice, first
    with [loading], then with [success] if the core's function resolved and
    with [error] if it rejected; in the latter case the error is written to
    the console and nowhere else. *)
Theorem cancel_never_rejects
    (cancelCollectionOffer :
       Config -> React.CancelCollectionOfferParameters -> Async World unit)
    (config : Config) (parameters : React.CancelParameters) (c : React.Component) :
  let underlying :=
    cancelCollectionOffer config
      {| React.cco_starknetAccount := React.starknetAccount parameters;
         React.cancelInfo :=
           {| React.info_orderHash := React.orderHash parameters;
              React.info_tokenAddress := React.tokenAddress parameters |} |}
      (React.world c) in
  let final :=
    match snd underlying with
    | Resolved _ => React.success
    | Rejected _ => React.error
    end in
  let c' := fst (React.cancel cancelCollectionOffer config parameters c) in
  snd (React.cancel cancelCollectionOffer config parameters c) = Resolved tt
  /\ React.setStatusCalls c' = React.setStatusCalls c ++ [React.loading; final]
  /\ React.status c' = final
  /\ React.console c'
     = React.console c
       ++ match snd underlying with
          | Resolved _ => []
          | Rejected e => [e]
          end
  /\ React.world c' = fst underlying.
Proof.
  unfold React.cancel, try_catch, bind, React.in_world, zoom. cbn.
  destruct (cancelCollectionOffer _ _ _) as [w' [[]|e]]; cbn;
    rewrite <- ?app_assoc, ?app_nil_r; done.
Qed.

(** ** The contract tables *)




(** C10.  The tables do not have the same roles.  The Sepolia table is
    empty, so no role is found in it; [eth] is found in the dev table and in
    no other; the Goerli and Mainnet tables have the same four roles. *)
Theorem contract_tables_not_uniform :
  Contracts.SEPOLIA_CONTRACTS = ∅
  /\ (forall role : string, Contracts.SEPOLIA_CONTRACTS !! role = None)
  /\ Contracts.DEV_CONTRACTS !! "eth"
     = Some "0x200184bde479ccffa50a89485417c907bc1d3779f9b1863d2158733135facce"
  /\ Contracts.GOERLI_CONTRACTS !! "eth" = None
  /\ Contracts.MAINNET_CONTRACTS !! "eth" = None
  /\ Contracts.SEPOLIA_CONTRACTS !! "eth" = None
  /\ dom Contracts.GOERLI_CONTRACTS
     = ({[ "nftContract"; "messaging"; "executor"; "orderbook" ]} : gset string)
  /\ dom Contracts.MAINNET_CONTRACTS = dom Contracts.GOERLI_CONTRACTS
  /\ dom Contracts.DEV_CONTRACTS = {[ "eth" ]} ∪ dom Contracts.GOERLI_CONTRACTS.
Proof.
  split_and!; [reflexivity | intros role; apply lookup_empty | reflexivity..].
Qed.

(** ** The lifecycle gateway *)

Import Lifecycle.

(** The components are reasoned about through their lemmas, not unfolded. *)
Arguments interfaceOf : simpl never.
Arguments readAt : simpl never.
Arguments broadcast : simpl never.
Arguments writeAt : simpl never.
Arguments awaitInclusion : simpl never.
Arguments ensureAllowance : simpl never.
Arguments getOrderStatus : simpl never.
Arguments sleep : simpl never.
Arguments writeWithRetry : simpl never.
Arguments canonical : simpl never.

Lemma same_chain_refl (w : World) : same_chain w w.
Proof. by repeat split. Qed.

Lemma same_chain_trans (w1 w2 w3 : World) :
  same_chain w1 w2 -> same_chain w2 w3 -> same_chain w1 w3.
Proof. unfold same_chain. intros (?&?&?&?&?) (?&?&?&?&?). repeat split; congruence. Qed.

Lemma same_chain_emit (e : Event) (w : World) : same_chain w (emit e w).
Proof. by repeat split. Qed.

Lemma submitted_app (l1 l2 : list Event) :
  submitted (l1 ++ l2) = submitted l1 ++ submitted l2.
Proof. apply omap_app. Qed.

Lemma broadcasts_app (l1 l2 : list Event) :
  broadcasts (l1 ++ l2) = broadcasts l1 ++ broadcasts l2.
Proof. apply omap_app. Qed.

(** What is broadcast was handed to the transport. *)
Lemma broadcasts_submitted (evs : list Event) :
  submitted evs = [] -> broadcasts evs = [].
Proof.
  induction evs as [|[] evs IH]; cbn; try done; intros H; by apply IH.
Qed.

Lemma reads_only_submitted (evs : list Event) :
  reads_only evs -> submitted evs = [].
Proof.
  induction 1 as [|[] evs Hread _ IH]; cbn in *; done.
Qed.

Lemma reads_only_app (l1 l2 : list Event) :
  reads_only l1 -> reads_only l2 -> reads_only (l1 ++ l2).
Proof. intros. by apply Forall_app. Qed.

Lemma reads_only_not_elem (evs : list Event) (e : Event) :
  reads_only evs -> is_read e = false -> e ∉ evs.
Proof.
  intros Hall He Hin. unfold reads_only in Hall. rewrite Forall_forall in Hall.
  specialize (Hall e Hin). by rewrite He in Hall.
Qed.

(** An interface that is in the client's memory is not fetched again. *)
Lemma interfaceOf_cached (facade : Facade) (address : Address) (a : Abi) (w : World) :
  interfaces w !! address = Some a ->
  interfaceOf facade address w = (w, Resolved a).
Proof. intros H. unfold interfaceOf. by rewrite H. Qed.

(** Resolving an interface sends at most the class lookup, leaves the chain
    alone, and fails with [InterfaceResolutionError] only. *)
Lemma interfaceOf_run (facade : Facade) (address : Address) (w : World) :
  let w' := fst (interfaceOf facade address w) in
  same_chain w w'
  /\ (exists evs, log w' = log w ++ evs /\ reads_only evs)
  /\ match snd (interfaceOf facade address w) with
     | Resolved a => interfaces w' !! address = Some a
     | Rejected e => e = InterfaceResolutionError address
     end.
Proof.
  unfold interfaceOf.
  destruct (interfaces w !! address) as [a|] eqn:Hcache; cbn.
  - split; [apply same_chain_refl|]. split; [|done].
    exists []. split; [by rewrite app_nil_r|constructor].
  - unfold getClassAt.
    destruct (classAt (node w) address) as [[[a|]]|e]; cbn;
      (split; [by repeat split|]);
      (split; [exists [GetClassAt address]; split; [done|by repeat constructor]|]);
      try done.
    apply lookup_insert_eq.
Qed.

(** A gateway read hands nothing to the transport and leaves the chain
    alone; if it resolves, the interface of the contract is in memory. *)
Lemma readAt_run (facade : Facade) (address : Address) (method : string)
    (args : Calldata) (w : World) :
  let w' := fst (readAt facade address method args w) in
  same_chain w w'
  /\ (exists evs, log w' = log w ++ evs /\ reads_only evs)
  /\ (is_resolved (snd (readAt facade address method args w)) ->
      is_Some (interfaces w' !! address)).
Proof.
  unfold readAt, bind.
  pose proof (interfaceOf_run facade address w) as (Hsame & (evs & Hlog & Hevs) & Hres).
  destruct (interfaceOf facade address w) as [w1 [a|e]]; cbn in *.
  - destruct a as [|entry a]; cbn.
    { split; [done|]. split; [by exists evs|done]. }
    unfold callMethod. case_bool_decide; cbn.
    + split; [by destruct Hsame as (?&?&?&?&?)|].
      split; [|by eauto].
      exists (evs ++ [NewContract address; CallContract address method args]).
      split.
      * rewrite Hlog. by rewrite <- !app_assoc.
      * apply reads_only_app; [done|by repeat constructor].
    + split; [by destruct Hsame as (?&?&?&?&?)|].
      split; [|done].
      exists (evs ++ [NewContract address]).
      split; [by rewrite Hlog, <- !app_assoc|].
      apply reads_only_app; [done|by repeat constructor].
  - split; [done|]. split; [by exists evs|done].
Qed.

(** A gateway call on a contract whose interface description the chain does
    not have is aborted with [InterfaceResolutionError] after the class
    lookup: no view is called and no transaction is handed over. *)
Lemma gateway_aborts_without_interface (facade : Facade) (address : Address)
    (method : string) (args : Calldata) (account : Account) (w : World) :
  interfaces w !! address = None ->
  classAt (node w) address = Resolved {| abi := None |} ->
  readAt facade address method args w
  = (emit (GetClassAt address) w, Rejected (InterfaceResolutionError address))
  /\ writeAt facade address method args account w
     = (emit (GetClassAt address) w, Rejected (InterfaceResolutionError address)).
Proof.
  intros Hcache Hcls. unfold readAt, writeAt, bind, interfaceOf, getClassAt.
  by rewrite Hcache, Hcls.
Qed.

(** Handing a transaction to the transport: it is broadcast, or the
    transport fails; either way it is the one transaction submitted. *)
Lemma broadcast_run (tx : Tx) (w : World) :
  let w' := fst (broadcast tx w) in
  node w' = node w /\ clock w' = clock w /\ elapse w' = elapse w
  /\ execute w' = execute w /\ interfaces w' = interfaces w
  /\ match snd (broadcast tx w) with
     | Resolved tx' => tx' = tx /\ log w' = log w ++ [Broadcast tx]
     | Rejected e => (exists m, e = ProviderError m) /\ log w' = log w ++ [BroadcastFailed tx]
     end.
Proof.
  unfold broadcast. destruct (faults w) as [|[] rest]; cbn; repeat split; eauto.
Qed.

Lemma broadcast_resolves (tx : Tx) (w : World) :
  head (faults w) <> Some true ->
  snd (broadcast tx w) = Resolved tx.
Proof. unfold broadcast. by destruct (faults w) as [|[] rest]. Qed.

Lemma awaitInclusion_run (tx : Tx) (w : World) :
  let w' := fst (awaitInclusion tx w) in
  clock w' = clock w /\ elapse w' = elapse w /\ execute w' = execute w
  /\ faults w' = faults w /\ interfaces w' = interfaces w
  /\ match snd (awaitInclusion tx w) with
     | Resolved _ =>
         log w' = log w ++ [Included tx] /\ execute w tx (node w) = inl (node w')
     | Rejected e =>
         log w' = log w ++ [Reverted tx] /\ node w' = node w
         /\ exists reason, e = RevertError reason
                           /\ execute w tx (node w) = inr reason
     end.
Proof.
  unfold awaitInclusion. destruct (execute w tx (node w)) as [n|reason]; cbn;
    repeat split; eauto.
Qed.

(** ** Approval Coordinator *)

(** A gateway write on a contract whose interface is in memory is the
    broadcast alone. *)
Lemma writeAt_cached (facade : Facade) (address : Address) (method : string)
    (args : Calldata) (account : Account) (w : World) :
  is_Some (interfaces w !! address) ->
  writeAt facade address method args account w
  = broadcast {| tx_contract := address; tx_entrypoint := method;
                 tx_calldata := args; tx_sender := account_address account |} w.
Proof.
  intros [a Ha]. unfold writeAt, bind. by rewrite (interfaceOf_cached _ _ a).
Qed.

(** C3.  Let the spender role resolve and the allowance read return
    [current].  If [current] covers the required amount, [ensureAllowance]
    resolves and has handed no transaction to the transport.  Otherwise it
    has handed over exactly one, the approval of exactly the required
    amount; if it resolves, the last two events are the broadcast of that
    approval and its inclusion, and the chain is the one the inclusion left;
    if it rejects, it does so with [ApprovalError] and the inclusion was not
    observed; and it does resolve when the transport takes the broadcast and
    the chain includes it. *)
Theorem ensureAllowance_zero_or_one_exact
    (facade : Facade) (account : Account) (spenderRole : string)
    (currencyAddress : Address) (required : Z) (w : World)
    (spender : Address) (current : Z) :
  Contracts.resolve (registry facade) spenderRole = Resolved spender ->
  snd (readAt facade currencyAddress "allowance"
              [Addr (account_address account); Addr spender] w)
  = Resolved (CNumber current) ->
  let run := ensureAllowance facade account spenderRole currencyAddress required w in
  let evs := events w (fst run) in
  let approval := approveTx currencyAddress spender required account in
  ((required <= current)%Z -> snd run = Resolved tt /\ submitted evs = [])
  /\ ((current < required)%Z ->
      submitted evs = [approval]
      /\ match snd run with
         | Resolved _ =>
             (exists pre, evs = pre ++ [Broadcast approval; Included approval]
                          /\ submitted pre = [])
             /\ execute w approval (node w) = inl (node (fst run))
         | Rejected e =>
             (exists reason, e = ApprovalError reason) /\ Included approval ∉ evs
         end
      /\ (head (faults w) <> Some true ->
          (exists n, execute w approval (node w) = inl n) ->
          snd run = Resolved tt)).
Proof.
  intros Hspender Hread run evs approval. subst run evs.
  unfold ensureAllowance, bind, lift_outcome. rewrite Hspender.
  pose proof (readAt_run facade currencyAddress "allowance"
                [Addr (account_address account); Addr spender] w)
    as (Hsame & (pre & Hlog & Hpre) & Hmem).
  destruct (readAt facade currencyAddress "allowance" _ w) as [w1 r].
  cbn in Hread, Hsame, Hlog, Hmem. subst r. specialize (Hmem I).
  destruct Hsame as (Hnode & Hclock & Helapse & Hexecute & Hfaults).
  split.
  - intros Hle. rewrite (proj2 (Z.leb_le _ _) Hle). cbn.
    split; [done|]. rewrite (events_app w w1 pre) by done.
    by apply reads_only_submitted.
  - intros Hlt. rewrite (proj2 (Z.leb_gt _ _) Hlt).
    unfold try_catch, bind. rewrite (writeAt_cached _ _ _ _ _ _ Hmem).
    fold (approveTx currencyAddress spender required account). fold approval.
    pose proof (broadcast_run approval w1)
      as (Bnode & Bclock & Belapse & Bexecute & Bifaces & Bres).
    pose proof (broadcast_resolves approval w1) as Bok.
    destruct (broadcast approval w1) as [w2 [tx|e]]; cbn in *.
    + destruct Bres as [-> Blog].
      pose proof (awaitInclusion_run approval w2)
        as (_ & _ & _ & _ & _ & Ires).
      destruct (awaitInclusion approval w2) as [w3 [[]|e]]; cbn in *.
      * destruct Ires as [Ilog Hexec].
        assert (Hevs : events w w3 = pre ++ [Broadcast approval; Included approval]).
        { apply events_app. rewrite Ilog, Blog, Hlog. by rewrite <- !app_assoc. }
        rewrite Hevs. split; [|split; [|done]].
        -- by rewrite submitted_app, (reads_only_submitted pre).
        -- split; [exists pre; split; [done|by apply reads_only_submitted]|].
           by rewrite Bexecute, Hexecute, Bnode, Hnode in Hexec.
      * destruct Ires as (Ilog & _ & reason & -> & Hrev).
        assert (Hevs : events w w3 = pre ++ [Broadcast approval; Reverted approval]).
        { apply events_app. rewrite Ilog, Blog, Hlog. by rewrite <- !app_assoc. }
        rewrite Hevs. split; [|split].
        -- by rewrite submitted_app, (reads_only_submitted pre).
        -- split; [by eexists|].
           intros [Hin|Hin]%elem_of_app.
           ++ by apply (reads_only_not_elem pre (Included approval)) in Hin.
           ++ not_in_list Hin.
        -- intros _ [n Hn]. rewrite Bexecute, Hexecute, Bnode, Hnode in Hrev. congruence.
    + destruct Bres as [[m ->] Blog].
      assert (Hevs : events w w2 = pre ++ [BroadcastFailed approval]).
      { apply events_app. rewrite Blog, Hlog. by rewrite <- !app_assoc. }
      rewrite Hevs. split; [|split].
      * by rewrite submitted_app, (reads_only_submitted pre).
      * split; [by eexists|].
        intros [Hin|Hin]%elem_of_app.
        -- by apply (reads_only_not_elem pre (Included approval)) in Hin.
        -- not_in_list Hin.
      * intros Hhead _. rewrite Hfaults in Bok. by specialize (Bok Hhead).
Qed.

(** ** Order Submitter *)

Lemma reads_only_broadcasts (evs : list Event) :
  reads_only evs -> broadcasts evs = [].
Proof. intros H. by apply broadcasts_submitted, reads_only_submitted. Qed.

Lemma lookup_broadcasts (evs : list Event) (i : nat) (tx : Tx) :
  evs !! i = Some (Broadcast tx) -> tx ∈ broadcasts evs.
Proof.
  intros H. unfold broadcasts. apply list_elem_of_omap.
  exists (Broadcast tx). split; [|done]. by apply list_elem_of_lookup_2 in H.
Qed.

(** A gateway write: reads, then the transaction broadcast or refused. *)
Lemma writeAt_run (facade : Facade) (address : Address) (method : string)
    (args : Calldata) (account : Account) (w : World) :
  let tx := {| tx_contract := address; tx_entrypoint := method;
               tx_calldata := args; tx_sender := account_address account |} in
  let w' := fst (writeAt facade address method args account w) in
  exists pre, reads_only pre
    /\ match snd (writeAt facade address method args account w) with
       | Resolved tx' => tx' = tx /\ log w' = log w ++ pre ++ [Broadcast tx]
       | Rejected (ProviderError _) => log w' = log w ++ pre ++ [BroadcastFailed tx]
       | Rejected _ => log w' = log w ++ pre
       end.
Proof.
  unfold writeAt, bind.
  pose proof (interfaceOf_run facade address w) as (_ & (pre & Hlog & Hpre) & Hres).
  destruct (interfaceOf facade address w) as [w1 [a|e]]; cbn in *.
  - set (tx := {| tx_contract := address |}).
    pose proof (broadcast_run tx w1) as (_ & _ & _ & _ & _ & Bres).
    destruct (broadcast tx w1) as [w2 [tx'|e]]; cbn in *; exists pre; (split; [done|]).
    + destruct Bres as [-> Blog]. split; [done|]. by rewrite Blog, Hlog, <- app_assoc.
    + destruct Bres as [[m ->] Blog]. by rewrite Blog, Hlog, <- app_assoc.
  - exists pre. subst e. done.
Qed.

Lemma writeWithRetry_unfold (facade : Facade) (address : Address) (method : string)
    (args : Calldata) (account : Account) (retries backoff : nat) (w : World) :
  writeWithRetry retries backoff facade address method args account w
  = match writeAt facade address method args account w with
    | (w', Rejected (ProviderError m)) =>
        match retries with
        | O => (w', Rejected (ProviderError m))
        | S retries' =>
            writeWithRetry retries' (2 * backoff) facade address method args
                           account (fst (sleep backoff w'))
        end
    | (w', r) => (w', r)
    end.
Proof. by destruct retries. Qed.

Lemma log_sleep (ticks : nat) (w : World) :
  log (fst (sleep ticks w)) = log w ++ [Slept ticks].
Proof. reflexivity. Qed.

(** The retried write broadcasts the transaction at most once, as the last
    thing it does, and only if it resolves. *)
Lemma writeWithRetry_run (facade : Facade) (address : Address) (method : string)
    (args : Calldata) (account : Account) (retries backoff : nat) (w : World) :
  let tx := {| tx_contract := address; tx_entrypoint := method;
               tx_calldata := args; tx_sender := account_address account |} in
  let run := writeWithRetry retries backoff facade address method args account w in
  exists pre, broadcasts pre = []
    /\ match snd run with
       | Resolved tx' => tx' = tx /\ log (fst run) = log w ++ pre ++ [Broadcast tx]
       | Rejected _ => log (fst run) = log w ++ pre
       end.
Proof.
  cbn zeta. revert backoff w.
  induction retries as [|retries IH]; intros backoff w;
    rewrite writeWithRetry_unfold;
    pose proof (writeAt_run facade address method args account w) as (pre & Hpre & Hres);
    cbn zeta in Hres;
    destruct (writeAt facade address method args account w) as [w1 [tx'|e]];
    cbn [fst snd] in Hres |- *.
  - exists pre. split; [by apply reads_only_broadcasts|done].
  - destruct e; cbn [fst snd].
    all: try (exists pre; split; [by apply reads_only_broadcasts|done]).
    eexists. split; [|exact Hres].
    by rewrite broadcasts_app, (reads_only_broadcasts pre).
  - exists pre. split; [by apply reads_only_broadcasts|done].
  - destruct e; cbn [fst snd].
    all: try (exists pre; split; [by apply reads_only_broadcasts|done]).
    destruct (IH (2 * backoff) (fst (sleep backoff w1))) as (post & Hpost & IHres).
    rewrite log_sleep, Hres in IHres.
    set (tx := {| tx_contract := address |}) in *.
    exists (pre ++ [BroadcastFailed tx; Slept backoff] ++ post). split.
    + by rewrite !broadcasts_app, (reads_only_broadcasts pre), Hpost.
    + destruct (writeWithRetry retries _ facade address method args account _)
        as [w2 [tx'|e]]; cbn [fst snd] in IHres |- *.
      * destruct IHres as [-> Hlog2]. split; [done|].
        rewrite Hlog2. by rewrite <- !app_assoc.
      * rewrite IHres. by rewrite <- !app_assoc.
Qed.

(** The canonical encoding ends with the nonce, so intents with different
    nonces have different encodings; whether their hashes differ is then a
    matter of the digest. *)
Lemma canonical_nonce (i1 i2 : OrderIntent) :
  canonical i1 = canonical i2 -> nonce i1 = nonce i2.
Proof.
  unfold canonical. intros H.
  apply (f_equal (@last Arg)) in H.
  rewrite !last_app in H. cbn in H. congruence.
Qed.

Lemma hash_nonce_sensitive_if_digest_injective (digest : Calldata -> Z)
    (i1 i2 : OrderIntent) :
  (forall c1 c2, digest c1 = digest c2 -> c1 = c2) ->
  nonce i1 <> nonce i2 ->
  digest (canonical i1) <> digest (canonical i2).
Proof. intros Hinj Hne Heq. apply Hne, canonical_nonce, Hinj, Heq. Qed.

(** What [ensureAllowance] leaves in the log: if it resolves, either nothing
    was broadcast, or the last two events are the broadcast of an approval
    and its inclusion; if it rejects, nothing but approvals was broadcast. *)
Lemma ensureAllowance_shape (facade : Facade) (account : Account)
    (spenderRole : string) (currencyAddress : Address) (required : Z) (w : World) :
  let run := ensureAllowance facade account spenderRole currencyAddress required w in
  exists evs, log (fst run) = log w ++ evs
    /\ match snd run with
       | Resolved _ =>
           broadcasts evs = []
           \/ exists pre a, evs = pre ++ [Broadcast a; Included a]
                            /\ broadcasts pre = [] /\ tx_entrypoint a = "approve"
       | Rejected _ => forall tx, tx ∈ broadcasts evs -> tx_entrypoint tx = "approve"
       end.
Proof.
  unfold ensureAllowance, bind, lift_outcome.
  destruct (Contracts.resolve (registry facade) spenderRole) as [spender|e]; cbn.
  2:{ exists []. rewrite app_nil_r. split; [done|]. intros tx Htx. by apply elem_of_nil in Htx. }
  pose proof (readAt_run facade currencyAddress "allowance"
                [Addr (account_address account); Addr spender] w)
    as (_ & (pre & Hlog & Hpre) & _).
  destruct (readAt facade currencyAddress "allowance" _ w) as [w1 [[current|en]|e]];
    cbn in Hlog |- *.
  - destruct (required <=? current)%Z; cbn.
    + exists pre. split; [done|]. left. by apply reads_only_broadcasts.
    + unfold try_catch, bind.
      pose proof (writeAt_run facade currencyAddress "approve"
                    [Addr spender; Num required] account w1) as (mid & Hmid & Wres).
      cbn zeta in Wres.
      destruct (writeAt facade currencyAddress "approve" _ account w1)
        as [w2 [tx|e]]; cbn in Wres |- *.
      * destruct Wres as [-> Wlog].
        match goal with |- context [awaitInclusion ?t w2] => set (a := t) in * end.
        pose proof (awaitInclusion_run a w2) as (_ & _ & _ & _ & _ & Ires).
        destruct (awaitInclusion a w2) as [w3 [[]|e]]; cbn in Ires |- *.
        -- destruct Ires as [Ilog _].
           exists ((pre ++ mid) ++ [Broadcast a; Included a]). split.
           ++ rewrite Ilog, Wlog, Hlog. by rewrite <- !app_assoc.
           ++ right. exists (pre ++ mid), a. split; [done|]. split; [|done].
              by rewrite broadcasts_app, !reads_only_broadcasts.
        -- destruct Ires as (Ilog & _).
           exists ((pre ++ mid) ++ [Broadcast a; Reverted a]). split.
           ++ rewrite Ilog, Wlog, Hlog. by rewrite <- !app_assoc.
           ++ intros tx. rewrite !broadcasts_app, !reads_only_broadcasts by done. cbn.
              by intros ->%list_elem_of_singleton.
      * assert (exists evs, log w2 = log w ++ evs /\ broadcasts evs = [])
          as (evs & Hevs & Hnone).
        { destruct e; eexists; (split; [rewrite Wres, Hlog, <- ?app_assoc; done|]);
            rewrite ?broadcasts_app, !reads_only_broadcasts by done; done. }
        exists evs. split; [done|]. rewrite Hnone. intros tx Htx.
        by apply elem_of_nil in Htx.
  - exists pre. split; [done|]. rewrite reads_only_broadcasts by done.
    intros tx Htx. by apply elem_of_nil in Htx.
  - exists pre. split; [done|]. rewrite reads_only_broadcasts by done.
    intros tx Htx. by apply elem_of_nil in Htx.
Qed.

(** Where a broadcast can sit in [l1 ++ x :: l2] when [l1] has none. *)
Lemma broadcast_position (l1 l2 : list Event) (x : Event) (i : nat) (tx : Tx) :
  broadcasts l1 = [] ->
  (l1 ++ x :: l2) !! i = Some (Broadcast tx) ->
  (i = length l1 /\ x = Broadcast tx)
  \/ (length l1 < i /\ l2 !! (i - S (length l1)) = Some (Broadcast tx)).
Proof.
  intros Hnone [Hl|[Hle Hr]]%lookup_app_Some.
  - apply lookup_broadcasts in Hl. rewrite Hnone in Hl. by apply elem_of_nil in Hl.
  - destruct (i - length l1) as [|n] eqn:Hn; cbn in Hr.
    + left. split; [lia|congruence].
    + right. split; [lia|]. by replace (i - S (length l1)) with n by lia.
Qed.

(** What [submit] leaves in the log: either nothing but approvals was
    broadcast, or the log ends with the broadcast of the order creation and
    what follows it, after the events of an [ensureAllowance] that
    resolved. *)
Lemma submit_shape (digest : Calldata -> Z) (facade : Facade) (account : Account)
    (f : OrderFields) (w : World) :
  let evs := events w (fst (submit digest facade account f w)) in
  (forall tx, tx ∈ broadcasts evs -> tx_entrypoint tx = "approve")
  \/ exists allow q c tail,
       evs = allow ++ q ++ [Broadcast c] ++ tail
       /\ broadcasts q = [] /\ broadcasts tail = []
       /\ tx_entrypoint c = "create_order"
       /\ (broadcasts allow = []
           \/ exists pre a, allow = pre ++ [Broadcast a; Included a]
                            /\ broadcasts pre = [] /\ tx_entrypoint a = "approve").
Proof.
  cbn zeta. unfold submit, bind, now, build.
  destruct (valid f (clock w)); cbn.
  2:{ left. unfold events. rewrite drop_all. intros tx Htx. by apply elem_of_nil in Htx. }
  pose proof (ensureAllowance_shape facade account "executor"
                (currencyAddress (fields f)) (requiredAmount (fields f)) w)
    as (allow & Hlog & Hshape).
  cbn zeta in Hlog, Hshape.
  destruct (ensureAllowance facade account "executor" _ _ w) as [w1 [[]|e]];
    cbn in Hlog, Hshape |- *.
  2:{ left. by rewrite (events_app w w1 allow). }
  assert (Hallow : forall tx, tx ∈ broadcasts allow -> tx_entrypoint tx = "approve").
  { destruct Hshape as [->|(pre & a & -> & Hpre & Ha)].
    - intros tx Htx. by apply elem_of_nil in Htx.
    - intros tx. rewrite broadcasts_app, Hpre. cbn. by intros ->%list_elem_of_singleton. }
  unfold lift_outcome.
  destruct (Contracts.resolve (registry facade) "executor") as [executor|e]; cbn.
  2:{ left. by rewrite (events_app w w1 allow). }
  unfold try_catch.
  pose proof (writeWithRetry_run facade executor "create_order"
                (canonical (fields f)) account maxRetries 1 w1) as (q & Hq & Wres).
  cbn zeta in Wres.
  destruct (writeWithRetry maxRetries 1 facade executor "create_order" _ account w1)
    as [w2 [tx|e]]; cbn in Wres |- *.
  2:{ left. rewrite (events_app w w2 (allow ++ q)) by (by rewrite Wres, Hlog, app_assoc).
      intros tx. rewrite broadcasts_app, Hq, app_nil_r. apply Hallow. }
  destruct Wres as [-> Wlog].
  match goal with |- context [awaitInclusion ?t w2] => set (c := t) in * end.
  pose proof (awaitInclusion_run c w2) as (_ & _ & _ & _ & _ & Ires).
  right. exists allow, q, c.
  destruct (awaitInclusion c w2) as [w3 [[]|e]]; cbn in Ires |- *.
  - destruct Ires as [Ilog _]. exists [Included c].
    split; [|done].
    apply events_app. rewrite Ilog, Wlog, Hlog. by rewrite <- !app_assoc.
  - destruct Ires as [Ilog _]. exists [Reverted c].
    split; [|done].
    apply events_app. rewrite Ilog, Wlog, Hlog. by rewrite <- !app_assoc.
Qed.

(** In the events of any run of [submit]: whenever an approval is broadcast
    at position [i] and the order creation at position [j], the inclusion of
    that approval is observed at a position strictly between the two. *)
Lemma submit_broadcasts_in_order
    (digest : Calldata -> Z) (facade : Facade) (account : Account)
    (f : OrderFields) (w : World) (i j : nat) (approval creation : Tx) :
  let evs := events w (fst (submit digest facade account f w)) in
  evs !! i = Some (Broadcast approval) -> tx_entrypoint approval = "approve" ->
  evs !! j = Some (Broadcast creation) -> tx_entrypoint creation = "create_order" ->
  exists k, i < k < j /\ evs !! k = Some (Included approval).
Proof.
  intros evs Hi Happroval Hj Hcreation.
  destruct (submit_shape digest facade account f w)
    as [Hnone|(allow & q & c & tail & Hevs & Hq & Htail & Hc & Hallow)];
    fold evs in Hnone || fold evs in Hevs.
  { apply lookup_broadcasts, Hnone in Hj. congruence. }
  destruct Hallow as [Hallow|(pre & a & -> & Hpre & Ha)].
  - (* no approval was broadcast: the one broadcast is the creation *)
    exfalso. rewrite Hevs in Hi.
    assert (Hpos : broadcasts (allow ++ q) = [])
      by (by rewrite broadcasts_app, Hallow, Hq).
    rewrite app_assoc in Hi. cbn in Hi.
    apply broadcast_position in Hi as [[_ [= ->]]|[_ Hi]]; [congruence| |done].
    apply lookup_broadcasts in Hi. rewrite Htail in Hi. by apply elem_of_nil in Hi.
  - rewrite Hevs in Hi, Hj |- *. rewrite <- !app_assoc in Hi, Hj |- *. cbn in Hi, Hj |- *.
    apply broadcast_position in Hi as [[-> [= ->]]|[Hlt Hi]]; [| |done].
    + (* the approval sits right after [pre]; its inclusion is the next event *)
      exists (S (length pre)).
      apply broadcast_position in Hj as [[_ [= <-]]|[Hlt Hj]]; [congruence| |done].
      split.
      * split; [lia|]. destruct (j - S (length pre)) as [|n] eqn:Hn; cbn in Hj;
          [discriminate|]. lia.
      * rewrite lookup_app_r by lia.
        by replace (S (length pre) - length pre) with 1 by lia.
    + (* any later broadcast is the creation, which is no approval *)
      exfalso. destruct (i - S (length pre)) as [|n]; cbn in Hi; [discriminate|].
      apply (broadcast_position q tail (Broadcast c)) in Hi
        as [[_ [= ->]]|[_ Hi]]; [congruence| |done].
      apply lookup_broadcasts in Hi. rewrite Htail in Hi. by apply elem_of_nil in Hi.
Qed.

(** When the allowance read falls short of what is required and
    [ensureAllowance] resolves, its events are reads followed by the
    broadcast of the approval of the required amount and its inclusion. *)
Lemma ensureAllowance_required_resolved
    (facade : Facade) (account : Account) (spenderRole : string)
    (currencyAddress : Address) (required : Z) (w : World)
    (spender : Address) (current : Z) :
  Contracts.resolve (registry facade) spenderRole = Resolved spender ->
  snd (readAt facade currencyAddress "allowance"
              [Addr (account_address account); Addr spender] w)
  = Resolved (CNumber current) ->
  (current < required)%Z ->
  let run := ensureAllowance facade account spenderRole currencyAddress required w in
  let approval := approveTx currencyAddress spender required account in
  is_resolved (snd run) = true ->
  exists pre, reads_only pre
    /\ log (fst run) = log w ++ pre ++ [Broadcast approval; Included approval].
Proof.
  intros Hspender Hread Hlt. cbn zeta.
  unfold ensureAllowance, bind, lift_outcome. rewrite Hspender.
  pose proof (readAt_run facade currencyAddress "allowance"
                [Addr (account_address account); Addr spender] w)
    as (_ & (pre & Hlog & Hpre) & Hmem).
  destruct (readAt facade currencyAddress "allowance" _ w) as [w1 r].
  cbn in Hread, Hlog, Hmem. subst r. specialize (Hmem I).
  rewrite (proj2 (Z.leb_gt _ _) Hlt).
  unfold try_catch, bind. rewrite (writeAt_cached _ _ _ _ _ _ Hmem).
  fold (approveTx currencyAddress spender required account).
  set (approval := approveTx currencyAddress spender required account).
  pose proof (broadcast_run approval w1) as (_ & _ & _ & _ & _ & Bres).
  destruct (broadcast approval w1) as [w2 [tx|e]]; cbn in *; [|done].
  destruct Bres as [-> Blog].
  pose proof (awaitInclusion_run approval w2) as (_ & _ & _ & _ & _ & Ires).
  destruct (awaitInclusion approval w2) as [w3 [[]|e]]; cbn in *; [|done].
  destruct Ires as [Ilog _]. intros _. exists pre. split; [done|].
  rewrite Ilog, Blog, Hlog. by rewrite <- !app_assoc.
Qed.

(** A run of [submit] on valid fields starts with the run of
    [ensureAllowance]: if that rejects, nothing follows; if it resolves,
    the log goes on from where it left it. *)
Lemma submit_after_allowance (digest : Calldata -> Z) (facade : Facade)
    (account : Account) (f : OrderFields) (w : World) :
  valid f (clock w) = true ->
  let allowance :=
    ensureAllowance facade account "executor" (currencyAddress (fields f))
                    (requiredAmount (fields f)) w in
  exists rest,
    log (fst (submit digest facade account f w)) = log (fst allowance) ++ rest
    /\ (is_resolved (snd allowance) = false -> rest = []).
Proof.
  intros Hvalid. cbn zeta. unfold submit, bind, now, build. rewrite Hvalid. cbn.
  destruct (ensureAllowance facade account "executor" _ _ w) as [w1 [[]|e]];
    cbn [fst snd is_resolved].
  2:{ exists []. by rewrite app_nil_r. }
  unfold lift_outcome.
  destruct (Contracts.resolve (registry facade) "executor") as [executor|e]; cbn.
  2:{ exists []. by rewrite app_nil_r. }
  unfold try_catch.
  pose proof (writeWithRetry_run facade executor "create_order"
                (canonical (fields f)) account maxRetries 1 w1) as (q & _ & Wres).
  cbn zeta in Wres.
  destruct (writeWithRetry maxRetries 1 facade executor "create_order" _ account w1)
    as [w2 [tx|e]]; cbn in Wres |- *.
  2:{ by exists q. }
  destruct Wres as [-> Wlog].
  match goal with |- context [awaitInclusion ?t w2] => set (c := t) in * end.
  pose proof (awaitInclusion_run c w2) as (_ & _ & _ & _ & _ & Ires).
  destruct (awaitInclusion c w2) as [w3 [[]|e]]; cbn in Ires |- *.
  - destruct Ires as [Ilog _]. exists (q ++ [Broadcast c; Included c]).
    split; [|done]. rewrite Ilog, Wlog. by rewrite <- !app_assoc.
  - destruct Ires as [Ilog _]. exists (q ++ [Broadcast c; Reverted c]).
    split; [|done]. rewrite Ilog, Wlog. by rewrite <- !app_assoc.
Qed.

(** C4.  In the events of any run of [submit]:
    - whenever an approval is broadcast at position [i] and the order
      creation at position [j], the inclusion of that approval is observed at
      a position strictly between the two;
    - whenever an approval was required (the fields are valid, the executor
      role resolves, and the allowance read is below the required amount)
      and the order creation is broadcast at position [j], the approval of
      the required amount was broadcast at some [i] and its inclusion
      observed at some [k], with [i < k < j]: the creation is never
      broadcast with a required approval missing or merely broadcast. *)
Theorem submit_approval_included_before_creation
    (digest : Calldata -> Z) (facade : Facade) (account : Account)
    (f : OrderFields) (w : World) :
  let evs := events w (fst (submit digest facade account f w)) in
  (forall (i j : nat) (approval creation : Tx),
     evs !! i = Some (Broadcast approval) -> tx_entrypoint approval = "approve" ->
     evs !! j = Some (Broadcast creation) -> tx_entrypoint creation = "create_order" ->
     exists k, i < k < j /\ evs !! k = Some (Included approval))
  /\ (forall (executor : Address) (current : Z) (j : nat) (creation : Tx),
        valid f (clock w) = true ->
        Contracts.resolve (registry facade) "executor" = Resolved executor ->
        snd (readAt facade (currencyAddress (fields f)) "allowance"
                    [Addr (account_address account); Addr executor] w)
        = Resolved (CNumber current) ->
        (current < requiredAmount (fields f))%Z ->
        evs !! j = Some (Broadcast creation) ->
        tx_entrypoint creation = "create_order" ->
        let approval :=
          approveTx (currencyAddress (fields f)) executor
                    (requiredAmount (fields f)) account in
        exists i k, i < k < j
          /\ evs !! i = Some (Broadcast approval)
          /\ evs !! k = Some (Included approval)).
Proof.
  intros evs. split.
  - intros i j approval creation. apply submit_broadcasts_in_order.
  - intros executor current j creation Hvalid Hexecutor Hread Hlt Hj Hcreation approval.
    destruct (submit_after_allowance digest facade account f w Hvalid)
      as (rest & Hlog & Hrest).
    cbn zeta in Hlog, Hrest.
    pose proof (ensureAllowance_required_resolved facade account "executor"
                  (currencyAddress (fields f)) (requiredAmount (fields f)) w
                  executor current Hexecutor Hread Hlt) as Hallow.
    pose proof (ensureAllowance_shape facade account "executor"
                  (currencyAddress (fields f)) (requiredAmount (fields f)) w)
      as (allow & Halog & Hshape).
    cbn zeta in Hallow, Halog, Hshape.
    destruct (ensureAllowance facade account "executor" _ _ w) as [w1 [[]|e]];
      cbn [fst snd is_resolved] in *.
    + destruct (Hallow eq_refl) as (pre & Hpre & Hlog1).
      assert (Hevs : evs = pre ++ [Broadcast approval; Included approval] ++ rest).
      { unfold evs. apply events_app. rewrite Hlog, Hlog1. by rewrite <- !app_assoc. }
      assert (Hi : evs !! length pre = Some (Broadcast approval)).
      { rewrite Hevs, lookup_app_r by lia. by rewrite Nat.sub_diag. }
      exists (length pre).
      destruct (submit_broadcasts_in_order digest facade account f w
                  (length pre) j approval creation Hi eq_refl Hj Hcreation)
        as (k & Hk & Hincluded).
      by exists k.
    + exfalso. rewrite (Hrest eq_refl), app_nil_r in Hlog.
      assert (Hevs : evs = allow)
        by (unfold evs; apply events_app; by rewrite Hlog).
      rewrite Hevs in Hj. apply lookup_broadcasts, Hshape in Hj. congruence.
Qed.

(** ** Order Status Resolver *)

(** A single status read leaves everything but the log as it was and sends
    reads only. *)
Lemma getOrderStatus_frame (config : Config) (parameters : GetOrderStatusParameters)
    (w : World) :
  let w' := fst (getOrderStatus config parameters w) in
  same_chain w w' /\ interfaces w' = interfaces w
  /\ exists evs, log w' = log w ++ evs /\ reads_only evs.
Proof.
  rewrite getOrderStatus_run. cbn zeta.
  destruct (classAt (node w) _) as [[[[|entry a]|]]|err]; cbn [abi].
  - split; [by repeat split|]. split; [done|].
    eexists. split; [done|]. by repeat constructor.
  - case_bool_decide; [destruct (callResult _ _ _ _) as [[z|e]|err]|];
      (split; [by repeat split|]); (split; [done|]);
      eexists; cbn; rewrite <- ?app_assoc; (split; [done|]); by repeat constructor.
  - split; [by repeat split|]. split; [done|].
    eexists. split; [done|]. by repeat constructor.
  - split; [by repeat split|]. split; [done|].
    eexists. split; [done|]. by repeat constructor.
Qed.

(** What a single status read answers depends on the chain alone. *)
Lemma getOrderStatus_node (config : Config) (parameters : GetOrderStatusParameters)
    (w1 w2 : World) :
  node w1 = node w2 ->
  snd (getOrderStatus config parameters w1) = snd (getOrderStatus config parameters w2).
Proof.
  intros Hnode. rewrite !getOrderStatus_run. cbn zeta. rewrite Hnode.
  destruct (classAt (node w2) _) as [[[[|entry a]|]]|err]; cbn [abi]; try done.
  case_bool_decide; [|done].
  by destruct (callResult _ _ _ _) as [[z|e]|err].
Qed.

(** A status that a read resolves with is the active variant of what the
    chain reports at the executor address. *)
Lemma getOrderStatus_resolved (config : Config) (parameters : GetOrderStatusParameters)
    (w : World) (r : GetOrderStatusResult) :
  snd (getOrderStatus config parameters w) = Resolved r ->
  exists e,
    callResult (node w) (starknetExecutorContract config) "get_order_status"
               [Num (orderHash parameters)] = Resolved (CEnum e)
    /\ orderStatus r = activeVariant e.
Proof.
  rewrite getOrderStatus_run. cbn zeta.
  destruct (classAt (node w) _) as [[[[|entry a]|]]|err]; cbn [abi]; try done.
  case_bool_decide; [|done].
  destruct (callResult _ _ _ _) as [[z|e]|err]; cbn; try done.
  intros [= <-]. by exists e.
Qed.

Lemma reads_and_sleeps_app (l1 l2 : list Event) :
  reads_and_sleeps l1 -> reads_and_sleeps l2 -> reads_and_sleeps (l1 ++ l2).
Proof. intros. by apply Forall_app. Qed.

Lemma reads_only_reads_and_sleeps (evs : list Event) :
  reads_only evs -> reads_and_sleeps evs.
Proof.
  unfold reads_only, reads_and_sleeps. intros H.
  eapply Forall_impl; [exact H|]. intros e He. cbn in *. by destruct (is_read e).
Qed.

Lemma reads_and_sleeps_submitted (evs : list Event) :
  reads_and_sleeps evs -> submitted evs = [].
Proof. induction 1 as [|[] evs Hread _ IH]; cbn in *; done. Qed.

Section Poll.

Variables (config : Config) (orderHash : Z) (targetStatuses : list string)
          (deadline : nat).

(** A poll with enough fuel, on an order that stays stuck until the
    deadline, ends in [TimeoutError] at the deadline (or at once, if the
    deadline has passed), having left the chain to itself. *)
Lemma poll_timeout (fuel : nat) :
  forall (backoff : nat) (w : World),
    1 <= backoff ->
    deadline - clock w < fuel ->
    stuck config orderHash targetStatuses w (deadline - clock w) ->
    exists w',
      poll fuel backoff config orderHash targetStatuses deadline w
      = (w', Rejected TimeoutError)
      /\ clock w' = clock w `max` deadline
      /\ node w' = Nat.iter (clock w' - clock w) (elapse w) (node w)
      /\ elapse w' = elapse w /\ execute w' = execute w /\ faults w' = faults w
      /\ interfaces w' = interfaces w
      /\ exists evs, log w' = log w ++ evs /\ reads_and_sleeps evs.
Proof.
  induction fuel as [|fuel IH]; intros backoff w Hbackoff Hfuel Hstuck; [lia|].
  cbn [poll]. unfold bind at 1.
  pose proof (getOrderStatus_frame config {| Core.orderHash := orderHash |} w)
    as ((Hnode & Hclock & Helapse & Hexecute & Hfaults) & Hifaces & evs & Hlog & Hevs).
  destruct (Hstuck 0 ltac:(lia)) as (s & Hs & Hnot). cbn [Nat.iter] in Hs.
  rewrite (getOrderStatus_node _ _ _ w) in Hs by done.
  destruct (getOrderStatus config {| Core.orderHash := orderHash |} w) as [w1 r].
  cbn [fst snd] in *. subst r. cbn [orderStatus].
  rewrite bool_decide_false by done.
  unfold bind at 1, now at 1.
  case_bool_decide as Hdeadline.
  - (* the deadline has passed *)
    eexists. split; [reflexivity|]. rewrite Hclock in *.
    split; [lia|]. rewrite Nat.sub_diag. cbn [Nat.iter].
    do 5 (split; [done|]).
    exists evs. split; [done|]. by apply reads_only_reads_and_sleeps.
  - (* sleep, then poll again *)
    unfold bind at 1. rewrite Hclock in *.
    set (nap := backoff `min` (deadline - clock w)).
    assert (Hnap : 1 <= nap <= deadline - clock w) by lia.
    set (w2 := fst (sleep nap w1)).
    assert (Hw2 : sleep nap w1 = (w2, Resolved tt)) by done.
    rewrite Hw2.
    assert (Hclock2 : clock w2 = clock w + nap)
      by (unfold w2, sleep; cbn; lia).
    assert (Hnode2 : node w2 = Nat.iter nap (elapse w) (node w))
      by (unfold w2, sleep; cbn; by rewrite Helapse, Hnode).
    assert (Helapse2 : elapse w2 = elapse w) by done.
    destruct (IH ((2 * backoff) `min` maxBackoff) w2) as
      (w' & Hrun & Hc & Hn & He & Hx & Hf & Hi & evs2 & Hlog2 & Hevs2).
    + unfold maxBackoff. lia.
    + lia.
    + intros d Hd. destruct (Hstuck (d + nap) ltac:(lia)) as (s' & Hs' & Hnot').
      exists s'. split; [|done]. rewrite <- Hs'. apply getOrderStatus_node.
      cbn [node with_node]. rewrite Helapse2, Hnode2. by rewrite Nat.iter_add.
    + eexists. split; [exact Hrun|]. split; [lia|]. split.
      { rewrite Hn, Helapse2, Hnode2, <- Nat.iter_add. f_equal. lia. }
      split; [congruence|]. split; [by rewrite Hx|]. split; [by rewrite Hf|].
      split; [by rewrite Hi|].
      exists (evs ++ [Slept nap] ++ evs2). split.
      * rewrite Hlog2. unfold w2. rewrite log_sleep, Hlog. by rewrite <- !app_assoc.
      * apply reads_and_sleeps_app; [by apply reads_only_reads_and_sleeps|].
        apply reads_and_sleeps_app; [by repeat constructor|done].
Qed.

End Poll.

(** C7.  Let the order stay outside the target statuses from now to the
    deadline.  Then [awaitStatus] rejects with [TimeoutError], at the
    deadline (at once if it has passed).  The poll has only read and slept:
    the chain is where its own progress over that time has taken it, and its
    behaviour is unchanged.  A single status read after the timeout resolves
    with the active variant that this chain reports, and leaves the chain as
    it is. *)
Theorem awaitStatus_timeout_leaves_chain
    (config : Config) (orderHash : Z) (targetStatuses : list string)
    (deadline : nat) (w : World) :
  stuck config orderHash targetStatuses w (deadline - clock w) ->
  let run := awaitStatus config orderHash targetStatuses deadline w in
  let w' := fst run in
  let truth := Nat.iter (clock w' - clock w) (elapse w) (node w) in
  let after := getOrderStatus config {| Core.orderHash := orderHash |} w' in
  snd run = Rejected TimeoutError
  /\ clock w' = clock w `max` deadline
  /\ node w' = truth
  /\ elapse w' = elapse w /\ execute w' = execute w /\ faults w' = faults w
  /\ reads_and_sleeps (events w w')
  /\ (exists e,
        callResult truth (starknetExecutorContract config) "get_order_status"
                   [Num orderHash] = Resolved (CEnum e)
        /\ snd after = Resolved {| orderStatus := activeVariant e |})
  /\ node (fst after) = truth.
Proof.
  intros Hstuck.
  destruct (poll_timeout config orderHash targetStatuses deadline
              (S (deadline - clock w)) 1 w ltac:(lia) ltac:(lia) Hstuck)
    as (w' & Hrun & Hclock & Hnode & Helapse & Hexecute & Hfaults & _ & evs & Hlog & Hevs).
  unfold awaitStatus. rewrite Hrun. cbn [fst snd].
  split; [done|]. split; [done|]. split; [done|].
  split; [done|]. split; [done|]. split; [done|].
  split; [by rewrite (events_app w w' evs)|].
  destruct (Hstuck (clock w' - clock w) ltac:(lia)) as (s & Hs & _).
  rewrite (getOrderStatus_node _ _ _ w') in Hs by (by rewrite Hnode).
  split.
  - destruct (getOrderStatus_resolved _ _ _ _ Hs) as (e & Hcall & Hact).
    exists e. rewrite <- Hnode. split; [done|]. rewrite Hs. cbn in Hact. by rewrite Hact.
  - rewrite <- Hnode.
    by destruct (getOrderStatus_frame config {| Core.orderHash := orderHash |} w')
      as ((? & _) & _).
Qed.

(** ** The scenarios of the design document *)

Import Examples.

(** Scenario A: an offer of 100 with no allowance.  One approval for 100 is
    broadcast and included, then the order creation; [submit] resolves with
    the hash. *)
Example scenario_A :
  let run := submit sumDigest devFacade offerer (offerOf 100) (worldOn (chain "Open" 0)) in
  snd run = Resolved (sumDigest (canonical (fields (offerOf 100))))
  /\ events (worldOn (chain "Open" 0)) (fst run)
     = [ GetClassAt devEth; NewContract devEth;
         CallContract devEth "allowance"
                      [Addr (account_address offerer); Addr devExecutor];
         Broadcast (approvalOf 100); Included (approvalOf 100);
         GetClassAt devExecutor;
         Broadcast (creationOf 100); Included (creationOf 100) ].
Proof. vm_compute. done. Qed.

(** Scenario B: an offer of 50 with an allowance of 200.  No approval is
    broadcast; the order creation goes out directly. *)
Example scenario_B :
  let run := submit sumDigest devFacade offerer (offerOf 50) (worldOn (chain "Open" 200)) in
  snd run = Resolved (sumDigest (canonical (fields (offerOf 50))))
  /\ broadcasts (events (worldOn (chain "Open" 200)) (fst run)) = [creationOf 50].
Proof. vm_compute. done. Qed.

(** An order that shows [Open] on a chain that does not move stays outside
    the target [Executed]. *)
Lemma open_order_stuck (span : nat) :
  stuck devConfig 7 ["Executed"] (worldOn (chain "Open" 0)) span.
Proof.
  assert (Hiter : forall d, Nat.iter d (fun n : Node => n) (chain "Open" 0)
                            = chain "Open" 0)
    by (induction d as [|d IH]; [done|rewrite Nat.iter_succ; exact IH]).
  intros d _. exists "Open". cbn [elapse node worldOn]. rewrite Hiter.
  split; [reflexivity|].
  by intros [=]%list_elem_of_singleton.
Qed.

(** Scenario D: a poll with a deadline one tick away on such an order times
    out, and the status read that follows still answers [Open]. *)
Lemma awaitStatus_timeout_leaves_chain_witness :
  snd (awaitStatus devConfig 7 ["Executed"] 1 (worldOn (chain "Open" 0)))
  = Rejected TimeoutError.
Proof.
  apply (awaitStatus_timeout_leaves_chain devConfig 7 ["Executed"] 1
           (worldOn (chain "Open" 0))).
  apply open_order_stuck.
Defined.

Lemma ensureAllowance_zero_or_one_exact_witness :
  (* allowance 0, required 100: one approval for 100, broadcast and included *)
  (submitted (events (worldOn (chain "Open" 0))
                (fst (ensureAllowance devFacade offerer "executor" devEth 100
                        (worldOn (chain "Open" 0)))))
   = [approvalOf 100]
   /\ snd (ensureAllowance devFacade offerer "executor" devEth 100
             (worldOn (chain "Open" 0)))
      = Resolved tt)
  (* allowance 200, required 50: nothing handed to the transport *)
  /\ submitted (events (worldOn (chain "Open" 200))
                  (fst (ensureAllowance devFacade offerer "executor" devEth 50
                          (worldOn (chain "Open" 200)))))
     = [].
Proof.
  assert (Hresolve : Contracts.resolve (registry devFacade) "executor" = Resolved devExecutor)
    by reflexivity.
  split.
  - assert (Hread : snd (readAt devFacade devEth "allowance"
                           [Addr (account_address offerer); Addr devExecutor]
                           (worldOn (chain "Open" 0)))
                    = Resolved (CNumber 0))
      by reflexivity.
    destruct (ensureAllowance_zero_or_one_exact devFacade offerer "executor" devEth 100
                (worldOn (chain "Open" 0)) devExecutor 0 Hresolve Hread) as [_ Hone].
    destruct (Hone ltac:(lia)) as (Hsubmitted & _ & Hresolves).
    split; [exact Hsubmitted|].
    apply Hresolves; [discriminate|]. by eexists.
  - assert (Hread : snd (readAt devFacade devEth "allowance"
                           [Addr (account_address offerer); Addr devExecutor]
                           (worldOn (chain "Open" 200)))
                    = Resolved (CNumber 200))
      by reflexivity.
    destruct (ensureAllowance_zero_or_one_exact devFacade offerer "executor" devEth 50
                (worldOn (chain "Open" 200)) devExecutor 200 Hresolve Hread) as [Hzero _].
    destruct (Hzero ltac:(lia)) as [_ Hnone].
    exact Hnone.
Defined.

Lemma submit_approval_included_before_creation_witness :
  (* the approval at 3 and the creation at 6 have the inclusion in between *)
  (exists k, 3 < k < 6
     /\ events (worldOn (chain "Open" 0))
               (fst (submit sumDigest devFacade offerer (offerOf 100)
                       (worldOn (chain "Open" 0)))) !! k
        = Some (Included (approvalOf 100)))
  (* allowance 0, required 100: before the creation at 6, the approval of
     100 was broadcast and included *)
  /\ (exists i k, i < k < 6
        /\ events (worldOn (chain "Open" 0))
                  (fst (submit sumDigest devFacade offerer (offerOf 100)
                          (worldOn (chain "Open" 0)))) !! i
           = Some (Broadcast (approvalOf 100))
        /\ events (worldOn (chain "Open" 0))
                  (fst (submit sumDigest devFacade offerer (offerOf 100)
                          (worldOn (chain "Open" 0)))) !! k
           = Some (Included (approvalOf 100))).
Proof.
  destruct (submit_approval_included_before_creation sumDigest devFacade offerer
              (offerOf 100) (worldOn (chain "Open" 0))) as [Hordered Hrequired].
  split.
  - apply (Hordered 3 6 (approvalOf 100) (creationOf 100)).
    + vm_compute. reflexivity.
    + reflexivity.
    + vm_compute. reflexivity.
    + reflexivity.
  - apply (Hrequired devExecutor 0%Z 6 (creationOf 100)).
    + reflexivity.
    + reflexivity.
    + reflexivity.
    + reflexivity.
    + vm_compute. reflexivity.
    + reflexivity.
Defined.

(** * Further properties of the sources *)

(** ** getOrderStatus: what it leaves alone and how it fails *)

(** X1.  [getOrderStatus] only reads.  Whatever the chain answers, the chain,
    the clock, the chain's behaviour and the client's memory are what they
    were; the log has grown by the events of the run, each of them a class
    lookup, a contract construction or a view call, and no transaction was
    handed to the transport. *)
Theorem getOrderStatus_read_only
    (config : Config) (parameters : GetOrderStatusParameters) (w : World) :
  let w' := fst (getOrderStatus config parameters w) in
  node w' = node w /\ clock w' = clock w /\ elapse w' = elapse w
  /\ execute w' = execute w /\ faults w' = faults w
  /\ interfaces w' = interfaces w
  /\ log w' = log w ++ events w w'
  /\ reads_only (events w w')
  /\ submitted (events w w') = [].
Proof.
  destruct (getOrderStatus_frame config parameters w)
    as ((Hnode & Hclock & Helapse & Hexecute & Hfaults) & Hifaces & evs & Hlog & Hevs).
  cbn zeta. rewrite (events_app _ _ evs Hlog).
  split_and!; try done. by apply reads_only_submitted.
Qed.

(** X2.  Status reads do not interfere: what a read answers after another
    read, for any hash and through any configuration, is what it would have
    answered without it. *)
Theorem getOrderStatus_reads_do_not_interfere
    (config config' : Config) (parameters parameters' : GetOrderStatusParameters)
    (w : World) :
  snd (getOrderStatus config' parameters' (fst (getOrderStatus config parameters w)))
  = snd (getOrderStatus config' parameters' w).
Proof.
  apply getOrderStatus_node.
  by destruct (getOrderStatus_frame config parameters w) as ((Hnode & _) & _).
Qed.

(** X3.  [getOrderStatus] resolves exactly when the class at the executor
    address has an interface description with a [get_order_status] entry
    point and the call of that entry point answers an enum. *)
Theorem getOrderStatus_resolves_iff
    (config : Config) (parameters : GetOrderStatusParameters) (w : World) :
  is_resolved (snd (getOrderStatus config parameters w)) = true
  <-> exists a e,
        classAt (node w) (starknetExecutorContract config)
          = Resolved {| abi := Some a |}
        /\ "get_order_status" ∈ a
        /\ callResult (node w) (starknetExecutorContract config) "get_order_status"
                      [Num (orderHash parameters)] = Resolved (CEnum e).
Proof.
  split.
  - rewrite getOrderStatus_run. cbn zeta.
    destruct (classAt (node w) _) as [[[[|entry a]|]]|err]; cbn [abi]; try done.
    case_bool_decide; [|done].
    destruct (callResult _ _ _ _) as [[z|e]|err]; try done.
    intros _. by exists (entry :: a), e.
  - intros (a & e & Hcls & Hin & Hcall).
    rewrite (getOrderStatus_run_callable _ _ _ a) by done. cbn zeta.
    by rewrite Hcall.
Qed.

(** X4.  The ways [getOrderStatus] rejects.  A rejection of the class lookup
    or of the call is passed on unchanged; the function's own error is
    [no abi.]; the constructor's is that of an interface description it
    cannot read; and there are the two type errors of a contract object
    without the entry point and of an answer that is no enum.  In each case
    the events sent stop at the step that failed. *)
Theorem getOrderStatus_rejections
    (config : Config) (parameters : GetOrderStatusParameters) (w : World)
    (err : Failure) :
  snd (getOrderStatus config parameters w) = Rejected err ->
  let executor := starknetExecutorContract config in
  let evs := events w (fst (getOrderStatus config parameters w)) in
  let script := getOrderStatus_script config parameters in
  (classAt (node w) executor = Rejected err /\ evs = take 1 script)
  \/ (classAt (node w) executor = Resolved {| abi := None |}
      /\ err = Error "no abi." /\ evs = take 1 script)
  \/ (classAt (node w) executor = Resolved {| abi := Some [] |}
      /\ err = Error "Unable to determine Cairo version" /\ evs = take 1 script)
  \/ (exists a, classAt (node w) executor = Resolved {| abi := Some a |}
        /\ a <> []
        /\ ("get_order_status" ∉ a)
        /\ err = TypeError "orderbookContract.get_order_status is not a function"
        /\ evs = take 2 script)
  \/ (exists a, classAt (node w) executor = Resolved {| abi := Some a |}
        /\ "get_order_status" ∈ a
        /\ callResult (node w) executor "get_order_status"
                      [Num (orderHash parameters)] = Rejected err
        /\ evs = script)
  \/ (exists a z, classAt (node w) executor = Resolved {| abi := Some a |}
        /\ "get_order_status" ∈ a
        /\ callResult (node w) executor "get_order_status"
                      [Num (orderHash parameters)] = Resolved (CNumber z)
        /\ err = TypeError "orderStatus.activeVariant is not a function"
        /\ evs = script).
Proof.
  cbn zeta. rewrite getOrderStatus_run. cbn zeta.
  destruct (classAt (node w) _) as [[[[|entry a]|]]|e0]; cbn [abi].
  - cbn [fst snd]. intros [= <-]. do 2 right. left. do 2 (split; [done|]).
    by apply events_app.
  - case_bool_decide.
    + destruct (callResult _ _ _ _) as [[z|e]|e0]; cbn [fst snd]; intros [= <-].
      * do 5 right. exists (entry :: a), z. do 4 (split; [done|]).
        apply events_app. cbn. by rewrite <- !app_assoc.
      * do 4 right. left. exists (entry :: a). do 3 (split; [done|]).
        apply events_app. cbn. by rewrite <- !app_assoc.
    + cbn [fst snd]. intros [= <-]. do 3 right. left. exists (entry :: a).
      do 4 (split; [done|]). apply events_app. cbn. by rewrite <- !app_assoc.
  - cbn [fst snd]. intros [= <-]. right. left. do 2 (split; [done|]).
    by apply events_app.
  - cbn [fst snd]. intros [= <-]. left. split; [done|]. by apply events_app.
Qed.

Lemma getOrderStatus_rejections_witness :
  classAt (Examples.chain "Open" 0) "0xdead"
  = Rejected (ProviderError "contract not found")
  /\ events (Examples.worldOn (Examples.chain "Open" 0))
            (fst (getOrderStatus ScriptExamples.strayConfig {| orderHash := 7 |}
                    (Examples.worldOn (Examples.chain "Open" 0))))
     = [GetClassAt "0xdead"].
Proof.
  destruct (getOrderStatus_rejections ScriptExamples.strayConfig {| orderHash := 7 |}
              (Examples.worldOn (Examples.chain "Open" 0))
              (ProviderError "contract not found") eq_refl)
    as [H|[(H & _)|[(H & _)|[(a & H & _)|[(a & H & _)|(a & z & H & _)]]]]];
    try (vm_compute in H; discriminate H).
  exact H.
Defined.

(** ** useCancelCollectionOffer: successive calls *)

(** X5.  Two calls of [cancel], one after the other.  The second runs in the
    world the first left and resolves like the first; [setStatus] has been
    called four times, [loading] before each outcome; the status that is
    left is that of the second call alone, whatever the first did; and the
    console holds the errors of both, in order. *)
Theorem cancel_twice
    (cancelCollectionOffer :
       Config -> React.CancelCollectionOfferParameters -> Async World unit)
    (config : Config) (first second : React.CancelParameters) (c : React.Component) :
  let call (parameters : React.CancelParameters) :=
    cancelCollectionOffer config
      {| React.cco_starknetAccount := React.starknetAccount parameters;
         React.cancelInfo :=
           {| React.info_orderHash := React.orderHash parameters;
              React.info_tokenAddress := React.tokenAddress parameters |} |} in
  let final (r : outcome unit) :=
    match r with Resolved _ => React.success | Rejected _ => React.error end in
  let logged (r : outcome unit) :=
    match r with Resolved _ => [] | Rejected e => [e] end in
  let u1 := call first (React.world c) in
  let u2 := call second (fst u1) in
  let c1 := fst (React.cancel cancelCollectionOffer config first c) in
  let c2 := fst (React.cancel cancelCollectionOffer config second c1) in
  snd (React.cancel cancelCollectionOffer config second c1) = Resolved tt
  /\ React.world c2 = fst u2
  /\ React.status c2 = final (snd u2)
  /\ React.setStatusCalls c2
     = React.setStatusCalls c
       ++ [React.loading; final (snd u1); React.loading; final (snd u2)]
  /\ React.console c2 = React.console c ++ logged (snd u1) ++ logged (snd u2).
Proof.
  unfold React.cancel, try_catch, bind, React.in_world, zoom. cbn.
  destruct (cancelCollectionOffer config _ (React.world c)) as [w1 [[]|e1]]; cbn;
    destruct (cancelCollectionOffer config _ w1) as [w2 [[]|e2]]; cbn;
    rewrite <- ?app_assoc, ?app_nil_r; done.
Qed.

(** ** The offer example script *)

Import OfferScript.

(** The run of [createOfferAndCheckStatus], case by case on what
    [createOffer] and the status read do. *)
Lemma createOfferAndCheckStatus_run
    (createOffer : Config -> CreateOfferParameters -> Async World CreateOfferResult)
    (config : Config) (accounts : Accounts) (offer : OfferV1) (p : Process) :
  createOfferAndCheckStatus createOffer config accounts offer p
  = let line := fun m vs => {| level := info; message := m; values := vs |} in
    match createOffer config
            {| starknetAccount := offerer accounts; OfferScript.offer := offer;
               approveInfo :=
                 {| approve_currencyAddress := starknetCurrencyContract config;
                    amount := startAmount offer |} |} (world p) with
    | (w1, Rejected e) =>
        ({| world := w1; output := output p ++ [line "Creating offer..." []];
            exitCode := exitCode p |}, Rejected e)
    | (w1, Resolved created) =>
        let h := created_orderHash created in
        match getOrderStatus config {| orderHash := h |} w1 with
        | (w2, Rejected e) =>
            ({| world := w2;
                output := output p ++ [line "Creating offer..." [];
                                       line "Order hash:" [LogHash h];
                                       line "Fetching order status..." []];
                exitCode := exitCode p |}, Rejected e)
        | (w2, Resolved status) =>
            ({| world := w2;
                output := output p ++ [line "Creating offer..." [];
                                       line "Order hash:" [LogHash h];
                                       line "Fetching order status..." [];
                                       line "Order status:" [LogStatus (orderStatus status)]];
                exitCode := exitCode p |}, Resolved h)
        end
    end.
Proof.
  unfold createOfferAndCheckStatus, bind, in_world, zoom, logger_info, ret. cbn.
  destruct (createOffer config _ (world p)) as [w1 [created|e]]; cbn; [|done].
  destruct (getOrderStatus config _ w1) as [w2 [status|e]]; cbn;
    by rewrite <- !app_assoc.
Qed.

(** X6.  If [createOfferAndCheckStatus] resolves with a hash, that hash is
    the one [createOffer] answered, for an approval of the offer's start
    amount in the configuration's currency; the status was read for that
    very hash, in the world [createOffer] left; and the four lines written
    carry that hash and that status. *)
Theorem createOfferAndCheckStatus_returns_created_hash
    (createOffer : Config -> CreateOfferParameters -> Async World CreateOfferResult)
    (config : Config) (accounts : Accounts) (offer : OfferV1) (p : Process) (h : Z) :
  snd (createOfferAndCheckStatus createOffer config accounts offer p) = Resolved h ->
  let created :=
    createOffer config
      {| starknetAccount := offerer accounts; OfferScript.offer := offer;
         approveInfo :=
           {| approve_currencyAddress := starknetCurrencyContract config;
              amount := startAmount offer |} |} (world p) in
  let read := getOrderStatus config {| orderHash := h |} (fst created) in
  let p' := fst (createOfferAndCheckStatus createOffer config accounts offer p) in
  snd created = Resolved {| created_orderHash := h |}
  /\ (exists status,
        snd read = Resolved {| orderStatus := status |}
        /\ output p'
           = output p
             ++ [ {| level := info; message := "Creating offer..."; values := [] |};
                  {| level := info; message := "Order hash:"; values := [LogHash h] |};
                  {| level := info; message := "Fetching order status..."; values := [] |};
                  {| level := info; message := "Order status:";
                     values := [LogStatus status] |} ])
  /\ world p' = fst read
  /\ exitCode p' = exitCode p.
Proof.
  rewrite createOfferAndCheckStatus_run. cbn zeta.
  destruct (createOffer config _ (world p)) as [w1 [[h']|e]]; cbn [fst snd]; [|done].
  cbn [created_orderHash].
  destruct (getOrderStatus config {| orderHash := h' |} w1) as [w2 [[status]|e]] eqn:Hread;
    cbn [fst snd]; [|done].
  intros [= <-]. rewrite Hread. cbn [fst snd].
  split; [done|]. split; [by exists status|done].
Qed.

Lemma createOfferAndCheckStatus_returns_created_hash_witness :
  snd (ScriptExamples.createOffer_ok Examples.devConfig
         {| starknetAccount := offerer ScriptExamples.accounts;
            offer := ScriptExamples.sampleOffer;
            approveInfo := {| approve_currencyAddress := Examples.devEth;
                              amount := 100 |} |}
         (Examples.worldOn (Examples.chain "Open" 0)))
  = Resolved {| created_orderHash := 42 |}.
Proof.
  apply (createOfferAndCheckStatus_returns_created_hash ScriptExamples.createOffer_ok
           Examples.devConfig ScriptExamples.accounts ScriptExamples.sampleOffer
           (ScriptExamples.processOn (Examples.chain "Open" 0)) 42).
  reflexivity.
Defined.

(** X7.  If [createOffer] rejects, [createOfferAndCheckStatus] rejects with
    the same error and does nothing further: the world is the one
    [createOffer] left (no status is read), and the one line written is
    [Creating offer...]. *)
Theorem createOfferAndCheckStatus_create_fails
    (createOffer : Config -> CreateOfferParameters -> Async World CreateOfferResult)
    (config : Config) (accounts : Accounts) (offer : OfferV1) (p : Process)
    (e : Failure) :
  let created :=
    createOffer config
      {| starknetAccount := offerer accounts; OfferScript.offer := offer;
         approveInfo :=
           {| approve_currencyAddress := starknetCurrencyContract config;
              amount := startAmount offer |} |} (world p) in
  snd created = Rejected e ->
  createOfferAndCheckStatus createOffer config accounts offer p
  = ({| world := fst created;
        output := output p
                  ++ [{| level := info; message := "Creating offer..."; values := [] |}];
        exitCode := exitCode p |},
     Rejected e).
Proof.
  cbn zeta. intros Hcreated. rewrite createOfferAndCheckStatus_run. cbn zeta.
  destruct (createOffer config _ (world p)) as [w1 r]. cbn in Hcreated. by subst r.
Qed.

Lemma createOfferAndCheckStatus_create_fails_witness :
  createOfferAndCheckStatus ScriptExamples.createOffer_fails Examples.devConfig
    ScriptExamples.accounts ScriptExamples.sampleOffer
    (ScriptExamples.processOn (Examples.chain "Open" 0))
  = ({| world := Examples.worldOn (Examples.chain "Open" 0);
        output := [{| level := info; message := "Creating offer..."; values := [] |}];
        exitCode := None |},
     Rejected (Error "insufficient balance")).
Proof.
  apply (createOfferAndCheckStatus_create_fails ScriptExamples.createOffer_fails
           Examples.devConfig ScriptExamples.accounts ScriptExamples.sampleOffer
           (ScriptExamples.processOn (Examples.chain "Open" 0))
           (Error "insufficient balance")).
  reflexivity.
Defined.

(** X8.  If [createOffer] resolves and the status read that follows
    rejects, [createOfferAndCheckStatus] rejects with the error of the read
    although the offer was created: the hash is written to the log and is
    not returned, and no status line is written. *)
Theorem createOfferAndCheckStatus_status_fails
    (createOffer : Config -> CreateOfferParameters -> Async World CreateOfferResult)
    (config : Config) (accounts : Accounts) (offer : OfferV1) (p : Process)
    (h : Z) (e : Failure) :
  let created :=
    createOffer config
      {| starknetAccount := offerer accounts; OfferScript.offer := offer;
         approveInfo :=
           {| approve_currencyAddress := starknetCurrencyContract config;
              amount := startAmount offer |} |} (world p) in
  let read := getOrderStatus config {| orderHash := h |} (fst created) in
  snd created = Resolved {| created_orderHash := h |} ->
  snd read = Rejected e ->
  createOfferAndCheckStatus createOffer config accounts offer p
  = ({| world := fst read;
        output := output p
                  ++ [ {| level := info; message := "Creating offer..."; values := [] |};
                       {| level := info; message := "Order hash:"; values := [LogHash h] |};
                       {| level := info; message := "Fetching order status...";
                          values := [] |} ];
        exitCode := exitCode p |},
     Rejected e).
Proof.
  cbn zeta. intros Hcreated Hread. rewrite createOfferAndCheckStatus_run. cbn zeta.
  destruct (createOffer config _ (world p)) as [w1 r]. cbn in Hcreated, Hread. subst r.
  cbn [created_orderHash fst snd].
  destruct (getOrderStatus config {| orderHash := h |} w1) as [w2 r].
  cbn in Hread. subst r. reflexivity.
Qed.

Lemma createOfferAndCheckStatus_status_fails_witness :
  snd (createOfferAndCheckStatus ScriptExamples.createOffer_ok Examples.devConfig
         ScriptExamples.accounts ScriptExamples.sampleOffer
         (ScriptExamples.processOn Examples.chainWithoutAbi))
  = Rejected (Error "no abi.").
Proof.
  rewrite (createOfferAndCheckStatus_status_fails ScriptExamples.createOffer_ok
             Examples.devConfig ScriptExamples.accounts ScriptExamples.sampleOffer
             (ScriptExamples.processOn Examples.chainWithoutAbi) 42 (Error "no abi.")).
  - reflexivity.
  - reflexivity.
  - reflexivity.
Defined.

Arguments createOfferAndCheckStatus : simpl never.

(** The run of [main] up to the call of [createOfferAndCheckStatus]. *)
Lemma main_run
    (createOffer : Config -> CreateOfferParameters -> Async World CreateOfferResult)
    (setupAccounts : Config -> Async World Accounts)
    (mintTokens : Config -> Accounts -> string -> bool -> Async World MintResult)
    (config : Config) (nftContract : string) (p : Process) :
  main createOffer setupAccounts mintTokens config nftContract p
  = let started :=
      output p ++ [{| level := info;
                      message := "Starting the offer creation and status check process...";
                      values := [] |}] in
    match setupAccounts config (world p) with
    | (w1, Rejected e) =>
        ({| world := w1; output := started; exitCode := exitCode p |}, Rejected e)
    | (w1, Resolved accounts) =>
        match mintTokens config accounts nftContract true w1 with
        | (w2, Rejected e) =>
            ({| world := w2; output := started; exitCode := exitCode p |}, Rejected e)
        | (w2, Resolved minted) =>
            match createOfferAndCheckStatus createOffer config accounts
                    {| brokerId := React.address (broker_listing accounts);
                       tokenAddress := nftContract;
                       tokenId := minted_tokenId minted;
                       startAmount := orderAmount minted;
                       currencyAddress := starknetCurrencyContract config |}
                    {| world := w2; output := started; exitCode := exitCode p |} with
            | (p', Resolved _) => (p', Resolved tt)
            | (p', Rejected e) => (p', Rejected e)
            end
        end
    end.
Proof.
  unfold main, bind, in_world, zoom, logger_info, ret. cbn.
  destruct (setupAccounts config (world p)) as [w1 [accounts|e]]; cbn; [|done].
  destruct (mintTokens config accounts nftContract true w1) as [w2 [minted|e]];
    cbn; [|done].
  by destruct (createOfferAndCheckStatus createOffer config accounts _ _)
    as [p' [h|e]].
Qed.

(** X9.  [main] resolves exactly when its four awaited steps resolve, each in
    the world the one before left: the accounts are set up; the tokens are
    minted for the configured collection, as an offer; [createOffer] is
    called by the offerer for the minted token, with the listing broker, the
    minted order amount as start amount and as approved amount, and the
    configuration's currency; and the status of the hash it answers is
    read. *)
Theorem main_resolves_iff
    (createOffer : Config -> CreateOfferParameters -> Async World CreateOfferResult)
    (setupAccounts : Config -> Async World Accounts)
    (mintTokens : Config -> Accounts -> string -> bool -> Async World MintResult)
    (config : Config) (nftContract : string) (p : Process) :
  snd (main createOffer setupAccounts mintTokens config nftContract p) = Resolved tt
  <-> exists accounts minted created status,
        let set_up := setupAccounts config (world p) in
        let mint := mintTokens config accounts nftContract true (fst set_up) in
        let create :=
          createOffer config
            {| starknetAccount := offerer accounts;
               offer := {| brokerId := React.address (broker_listing accounts);
                           tokenAddress := nftContract;
                           tokenId := minted_tokenId minted;
                           startAmount := orderAmount minted;
                           currencyAddress := starknetCurrencyContract config |};
               approveInfo :=
                 {| approve_currencyAddress := starknetCurrencyContract config;
                    amount := orderAmount minted |} |}
            (fst mint) in
        snd set_up = Resolved accounts
        /\ snd mint = Resolved minted
        /\ snd create = Resolved created
        /\ snd (getOrderStatus config {| orderHash := created_orderHash created |}
                  (fst create))
           = Resolved status.
Proof.
  rewrite main_run. cbn zeta. split.
  - destruct (setupAccounts config (world p)) as [w1 [accounts|e]]; [|done].
    destruct (mintTokens config accounts nftContract true w1) as [w2 [minted|e]] eqn:Hmint;
      [|done].
    rewrite createOfferAndCheckStatus_run. cbn zeta. cbn [world startAmount].
    destruct (createOffer config _ w2) as [w3 [created|e]] eqn:Hcreate; [|done].
    destruct (getOrderStatus config _ w3) as [w4 [status|e]] eqn:Hread; [|done].
    intros _. exists accounts, minted, created, status. cbn [fst snd].
    rewrite Hmint. cbn [fst snd]. rewrite Hcreate. cbn [fst snd]. by rewrite Hread.
  - intros (accounts & minted & created & status & Hset & Hmint & Hcreate & Hread).
    destruct (setupAccounts config (world p)) as [w1 r1]. cbn [fst snd] in *. subst r1.
    destruct (mintTokens config accounts nftContract true w1) as [w2 r2].
    cbn [fst snd] in *. subst r2.
    rewrite createOfferAndCheckStatus_run. cbn zeta. cbn [world startAmount].
    destruct (createOffer config _ w2) as [w3 r3]. cbn [fst snd] in *. subst r3.
    destruct (getOrderStatus config _ w3) as [w4 r4]. cbn [fst snd] in *. by subst r4.
Qed.

(** X10.  The script stops at the first step that fails and exits with code
    1.  If setting up the accounts rejects, nothing is minted and no offer
    is created: the world is the one [setupAccounts] left.  If minting
    rejects, no offer is created: the world is the one [mintTokens] left.
    In both cases the log holds the opening line and the error line, and the
    exit code is 1.  If all of [main] resolves, [process.exit] is not
    called and no error line is written. *)
Theorem start_stops_at_first_failure
    (createOffer : Config -> CreateOfferParameters -> Async World CreateOfferResult)
    (setupAccounts : Config -> Async World Accounts)
    (mintTokens : Config -> Accounts -> string -> bool -> Async World MintResult)
    (config : Config) (nftContract : string) (p : Process) :
  let opening :=
    {| level := info;
       message := "Starting the offer creation and status check process...";
       values := [] |} in
  let failed (e : Failure) :=
    {| level := error; message := "An error occurred:"; values := [LogFailure e] |} in
  let p' := start createOffer setupAccounts mintTokens config nftContract p in
  let set_up := setupAccounts config (world p) in
  match snd set_up with
  | Rejected e =>
      p' = {| world := fst set_up; output := output p ++ [opening; failed e];
              exitCode := Some 1%Z |}
  | Resolved accounts =>
      let mint := mintTokens config accounts nftContract true (fst set_up) in
      match snd mint with
      | Rejected e =>
          p' = {| world := fst mint; output := output p ++ [opening; failed e];
                  exitCode := Some 1%Z |}
      | Resolved _ =>
          match snd (main createOffer setupAccounts mintTokens config nftContract p) with
          | Rejected e =>
              exitCode p' = Some 1%Z /\ last (output p') = Some (failed e)
          | Resolved _ =>
              exitCode p' = exitCode p
              /\ exists lines, output p' = output p ++ opening :: lines
                               /\ Forall (fun l => level l = info) lines
          end
      end
  end.
Proof.
  cbn zeta. unfold start. rewrite main_run. cbn zeta.
  destruct (setupAccounts config (world p)) as [w1 [accounts|e]]; cbn [fst snd].
  2:{ unfold process_exit, logger_error. cbn. by rewrite <- app_assoc. }
  destruct (mintTokens config accounts nftContract true w1) as [w2 [minted|e]];
    cbn [fst snd].
  2:{ unfold process_exit, logger_error. cbn. by rewrite <- app_assoc. }
  rewrite createOfferAndCheckStatus_run. cbn zeta. cbn [world startAmount output exitCode].
  destruct (createOffer config _ w2) as [w3 [created|e]]; cbn [fst snd].
  2:{ unfold process_exit, logger_error. cbn. split; [done|]. by rewrite last_snoc. }
  destruct (getOrderStatus config _ w3) as [w4 [status|e]]; cbn [fst snd].
  - cbn. split; [done|]. eexists. rewrite <- !app_assoc. split; [done|].
    by repeat constructor.
  - unfold process_exit, logger_error. cbn. split; [done|]. by rewrite last_snoc.
Qed.

(** X11.  The status check of [createOfferAndCheckStatus] leaves the chain as
    [createOffer] left it: whether the steps resolve or reject, all that the
    function adds to what [createOffer] did is reads, and it hands no
    transaction of its own to the transport. *)
Theorem createOfferAndCheckStatus_adds_reads_only
    (createOffer : Config -> CreateOfferParameters -> Async World CreateOfferResult)
    (config : Config) (accounts : Accounts) (offer : OfferV1) (p : Process) :
  let created :=
    createOffer config
      {| starknetAccount := offerer accounts; OfferScript.offer := offer;
         approveInfo :=
           {| approve_currencyAddress := starknetCurrencyContract config;
              amount := startAmount offer |} |} (world p) in
  let w' := world (fst (createOfferAndCheckStatus createOffer config accounts offer p)) in
  node w' = node (fst created)
  /\ clock w' = clock (fst created)
  /\ faults w' = faults (fst created)
  /\ log w' = log (fst created) ++ events (fst created) w'
  /\ reads_only (events (fst created) w')
  /\ submitted (events (fst created) w') = [].
Proof.
  cbn zeta. rewrite createOfferAndCheckStatus_run. cbn zeta.
  destruct (createOffer config _ (world p)) as [w1 [created|e]]; cbn [fst snd].
  - pose proof (getOrderStatus_frame config
                  {| orderHash := created_orderHash created |} w1)
      as ((Hnode & Hclock & _ & _ & Hfaults) & _ & evs & Hlog & Hevs).
    destruct (getOrderStatus config _ w1) as [w2 [status|e]]; cbn [fst snd world] in *;
      rewrite (events_app _ _ evs Hlog);
      split_and!; try done; by apply reads_only_submitted.
  - cbn [world]. unfold events. rewrite drop_all.
    split_and!; try done; [by rewrite app_nil_r|constructor].
Qed.

(** ** The contract tables: the addresses *)

Import Contracts.

(** A lookup in a table built from a list of entries finds one of them. *)
Lemma lookup_table_entry (entries : list (string * string)) (role a : string) :
  (list_to_map entries : ContractTable) !! role = Some a -> (role, a) ∈ entries.
Proof. apply elem_of_list_to_map_2. Qed.

(** Case analysis on the membership in a concrete list of entries. *)
Ltac table_entry H :=
  apply lookup_table_entry in H;
  repeat (apply elem_of_cons in H as [H|H]; [injection H as -> ->|]);
  try (by apply elem_of_nil in H).

(** X12.  No address is configured twice: if two lookups, in the same table
    or in the tables of two networks, find the same address, they are the
    same lookup, same network and same role. *)
Theorem contract_addresses_distinct
    (n1 n2 : Network) (role1 role2 : string) (a : string) :
  contracts_of n1 !! role1 = Some a ->
  contracts_of n2 !! role2 = Some a ->
  n1 = n2 /\ role1 = role2.
Proof.
  intros H1 H2.
  destruct n1; cbn [contracts_of] in H1; table_entry H1;
    destruct n2; cbn [contracts_of] in H2;
    apply lookup_table_entry in H2;
    repeat (apply elem_of_cons in H2 as [H2|H2];
            [first [discriminate H2 | by injection H2 as ->]|]);
    by apply elem_of_nil in H2.
Qed.

Lemma contract_addresses_distinct_witness :
  Dev = Dev /\ "eth" = "eth".
Proof.
  apply (contract_addresses_distinct Dev Dev "eth" "eth"
           "0x200184bde479ccffa50a89485417c907bc1d3779f9b1863d2158733135facce");
    reflexivity.
Defined.

(** X13.  Every configured address is a well-formed contract address: a
    [0x] literal of hexadecimal digits whose value is not zero and is below
    [2^251]. *)
Theorem contract_addresses_well_formed (n : Network) (role a : string) :
  contracts_of n !! role = Some a ->
  Hex.is_address a = true.
Proof.
  intros H. destruct n; cbn [contracts_of] in H; table_entry H; by vm_compute.
Qed.

Lemma contract_addresses_well_formed_witness :
  Hex.is_address "0x7b42945bc47001db92fe1b9739d753925263f2f1036c2ae1f87536c916ee6a"
  = true.
Proof.
  apply (contract_addresses_well_formed Mainnet "executor"). reflexivity.
Defined.
